(** * daemon.Run: start-up, concurrent phase and shutdown classification

    A shallow embedding of [Run] from [daemon/daemon.go].

    [Run] is modelled as a small-step, interleaving state machine.  There
    are three threads of control: the goroutine that called [Run] (main),
    the goroutine running [server.ListenAndServe] and the goroutine running
    the polling closure.  Every statement of the source that reads or
    writes something another thread can see is one step; the scheduler and
    the collaborators outside this package ([cli.Ping], [poller.Poll],
    [server.ListenAndServe], the owner of [parentCtx]) are the labels that
    drive the machine, so the machine itself is an executable function
    [step], and an execution is a list of labels.  The collaborators are
    not constrained: a call may return any result, at any moment, or never.

    [setupLogger] and the construction of the client, engine and poller
    (lines 38-97) take no part in the control flow and are left out; log
    lines are kept as events. *)

From Stdlib Require Import ZArith String List Bool Lia.
Import ListNotations.
Open Scope string_scope.
Open Scope Z_scope.

(** ** Data *)

(** Go [error] values.  [Canceled] is the sentinel [context.Canceled];
    the source compares against it with [==].  A nil [error] is [None]. *)
Inductive error : Type :=
| Canceled
| Failure (msg : string).

Definition is_Canceled (e : error) : bool :=
  match e with Canceled => true | Failure _ => false end.

Definition is_nil (e : option error) : bool :=
  match e with None => true | Some _ => false end.

(** The fields of [Config] that [Run]'s control flow reads
    ([config.Runner.Name], [config.Runner.Capacity], [config.Server.Port]).
    [Capacity] is a Go [int]; only its comparison with 1 is used. *)
Record Config : Type := {
  Runner_Name : string;
  Runner_Capacity : Z;
  Server_Port : string
}.

(** [time.Second], a [time.Duration] in nanoseconds. *)
Definition Second : Z := 1000000000.

(** The threads of control. *)
Inductive Thread : Type := Main | Server | Poller.

(** What an execution leaves behind, in program order. *)
Inductive Event : Type :=
| EvParentCancel                            (* parentCtx was cancelled *)
| EvLog (msg : string)                      (* a logrus line *)
| EvGo (t : Thread)                         (* g.Go(...) *)
| EvPing (r : option error)                 (* cli.Ping returned r *)
| EvCtxDone                                 (* line 126: <-ctx.Done() taken *)
| EvSleep (d : Z)                           (* time.Sleep(d) *)
| EvPoll (n : Z) (r : option error)         (* poller.Poll(ctx, n) returned r *)
| EvSetScheduledExit                        (* isScheduledExit = true *)
| EvCancel                                  (* line 161: the cancel call *)
| EvTaskReturn (t : Thread) (r : option error) (* a g.Go closure returned r *)
| EvWait (r : option error)                 (* g.Wait() returned r *)
| EvReturn (r : option error).              (* Run returned r *)

(** ** errgroup.Group

    [golang.org/x/sync/errgroup].  [g_cancel] tells whether the group
    carries a cancel function: it does when built by
    [errgroup.WithContext], it does not in the zero value.  [g_wg] is the
    wait group's counter, [g_errOnce] the [sync.Once], [g_err] the error. *)
Record Group : Type := {
  g_cancel : bool;
  g_wg : nat;
  g_errOnce : bool;
  g_err : option error
}.

(** [var g errgroup.Group] (line 99). *)
Definition zeroGroup : Group :=
  {| g_cancel := false; g_wg := 0; g_errOnce := false; g_err := None |}.

(** [g.Go(f)], the part run by the caller: [g.wg.Add(1)]. *)
Definition Group_Go (g : Group) : Group :=
  {| g_cancel := g_cancel g; g_wg := S (g_wg g);
     g_errOnce := g_errOnce g; g_err := g_err g |}.

(** [g.Go(f)], the part run by the new goroutine once [f] has returned
    [r]: on a non-nil [r], [g.errOnce.Do] records it and calls the cancel
    function if there is one; then [g.wg.Done()].  The boolean says whether
    the cancel function was called. *)
Definition Group_done (r : option error) (g : Group) : Group * bool :=
  match r with
  | Some e =>
      if g_errOnce g
      then ({| g_cancel := g_cancel g; g_wg := pred (g_wg g);
               g_errOnce := true; g_err := g_err g |}, false)
      else ({| g_cancel := g_cancel g; g_wg := pred (g_wg g);
               g_errOnce := true; g_err := Some e |}, g_cancel g)
  | None =>
      ({| g_cancel := g_cancel g; g_wg := pred (g_wg g);
          g_errOnce := g_errOnce g; g_err := g_err g |}, false)
  end.

(** ** Program counters *)

(** The goroutine that called [Run]. *)
Inductive MainPc : Type :=
| MStart                        (* lines 34-119 *)
| MPing                         (* line 124, inside cli.Ping *)
| MSelect (err : option error)  (* lines 125-129 *)
| MCtxErr (err : option error)  (* lines 130-132 *)
| MPingErr (err : option error) (* lines 133-135, 137-140 *)
| MSleep                        (* line 136 *)
| MGoPoller                     (* line 143 *)
| MWait                         (* line 169, inside g.Wait *)
| MJoined (err : option error)  (* lines 171-180 *)
| MReturned (r : option error). (* Run has returned r *)

(** The goroutine of lines 113-115. *)
Inductive ServerPc : Type :=
| SNone                         (* never started *)
| SServe                        (* inside server.ListenAndServe(ctx) *)
| SDone.

(** The goroutine of lines 143-167. *)
Inductive PollerPc : Type :=
| PNone                         (* never started *)
| PStart                        (* lines 144-152 *)
| PPollSingle                   (* line 153, inside poller.Poll(ctx, 0) *)
| PPolled (pollErr : option error) (* lines 154-160 *)
| PCancel                       (* line 161 *)
| PPollCont                     (* line 165, inside poller.Poll *)
| PReturn                       (* lines 162 and 166: return nil *)
| PDone.

(** ** State *)

Record State : Type := {
  parentDone : bool;            (* parentCtx is done *)
  cancelled : bool;             (* cancelBySingleStageMode was called *)
  isScheduledExit : bool;
  g : Group;
  main : MainPc;
  server : ServerPc;
  poller : PollerPc;
  trace : list Event            (* oldest first *)
}.

(** [ctx] comes from [context.WithCancel(parentCtx)]: it is done as soon as
    the parent is done or its own cancel function was called. *)
Definition ctx_done (s : State) : bool := parentDone s || cancelled s.

Definition initial : State :=
  {| parentDone := false; cancelled := false; isScheduledExit := false;
     g := zeroGroup; main := MStart; server := SNone; poller := PNone;
     trace := [] |}.

Definition emit (evs : list Event) (s : State) : State :=
  {| parentDone := parentDone s; cancelled := cancelled s;
     isScheduledExit := isScheduledExit s; g := g s; main := main s;
     server := server s; poller := poller s; trace := trace s ++ evs |}.

Definition set_main (pc : MainPc) (s : State) : State :=
  {| parentDone := parentDone s; cancelled := cancelled s;
     isScheduledExit := isScheduledExit s; g := g s; main := pc;
     server := server s; poller := poller s; trace := trace s |}.

Definition set_server (pc : ServerPc) (s : State) : State :=
  {| parentDone := parentDone s; cancelled := cancelled s;
     isScheduledExit := isScheduledExit s; g := g s; main := main s;
     server := pc; poller := poller s; trace := trace s |}.

Definition set_poller (pc : PollerPc) (s : State) : State :=
  {| parentDone := parentDone s; cancelled := cancelled s;
     isScheduledExit := isScheduledExit s; g := g s; main := main s;
     server := server s; poller := pc; trace := trace s |}.

Definition set_group (g' : Group) (s : State) : State :=
  {| parentDone := parentDone s; cancelled := cancelled s;
     isScheduledExit := isScheduledExit s; g := g'; main := main s;
     server := server s; poller := poller s; trace := trace s |}.

Definition set_parentDone (s : State) : State :=
  {| parentDone := true; cancelled := cancelled s;
     isScheduledExit := isScheduledExit s; g := g s; main := main s;
     server := server s; poller := poller s; trace := trace s |}.

(** Calling the cancel function of [ctx]; a second call changes nothing. *)
Definition cancelBySingleStageMode (s : State) : State :=
  {| parentDone := parentDone s; cancelled := true;
     isScheduledExit := isScheduledExit s; g := g s; main := main s;
     server := server s; poller := poller s; trace := trace s |}.

Definition set_isScheduledExit (s : State) : State :=
  {| parentDone := parentDone s; cancelled := cancelled s;
     isScheduledExit := true; g := g s; main := main s;
     server := server s; poller := poller s; trace := trace s |}.

(** A closure passed to [g.Go] has returned [r]. *)
Definition task_return (t : Thread) (r : option error) (s : State) : State :=
  let '(g', c) := Group_done r (g s) in
  let s1 := set_group g' (emit [EvTaskReturn t r] s) in
  if c then cancelBySingleStageMode s1 else s1.

(** [Run] returns [r]; the deferred [cancelBySingleStageMode()] (line 35)
    runs on the way out. *)
Definition Run_return (r : option error) (s : State) : State :=
  set_main (MReturned r) (cancelBySingleStageMode (emit [EvReturn r] s)).

(** Lines 171-180, as a function of what [g.Wait] returned and of the
    flag: the value [Run] returns and the lines it logs. *)
Definition classify (err : option error) (flag : bool)
  : option error * list Event :=
  match err with
  | Some e =>
      if is_Canceled e && flag
      then (None, [EvLog "shutting down the server (scheduled)"])
      else (Some e, [EvLog "shutting down the server"])
  | None => (None, [])
  end.

(** ** Steps *)

(** What drives the machine. [Sched t] lets thread [t] run its next
    statement; [Ret t r] makes the collaborator call thread [t] is blocked
    in return [r]; [ParentCancel] cancels [parentCtx]. *)
Inductive Label : Type :=
| ParentCancel
| Sched (t : Thread)
| Ret (t : Thread) (r : option error).

Section Run.

Variable config : Config.

Definition isSingleStageMode : bool := Runner_Capacity config <? 1.

Definition step_main (s : State) : option State :=
  match main s with
  | MStart =>
      if negb (String.eqb (Server_Port config) "false")
      then Some (set_main MPing
                  (set_server SServe
                    (set_group (Group_Go (g s))
                      (emit [EvLog "starting the server"; EvGo Server] s))))
      else Some (set_main MPing
                  (emit [EvLog "server is disable due to port value '0'"] s))
  | MPing => None
  | MSelect err =>
      if ctx_done s
      then Some (Run_return None (emit [EvCtxDone] s))
      else Some (set_main (MCtxErr err) s)
  | MCtxErr err =>
      if ctx_done s
      then Some (set_main MGoPoller s)
      else Some (set_main (MPingErr err) s)
  | MPingErr err =>
      if negb (is_nil err)
      then Some (set_main MSleep
                  (emit [EvLog "cannot ping the remote server"] s))
      else Some (set_main MGoPoller
                  (emit [EvLog "successfully pinged the remote server"] s))
  | MSleep => Some (set_main MPing (emit [EvSleep Second] s))
  | MGoPoller =>
      Some (set_main MWait
             (set_poller PStart
               (set_group (Group_Go (g s)) (emit [EvGo Poller] s))))
  | MWait =>
      match g_wg (g s) with
      | O =>
          let s1 := emit [EvWait (g_err (g s))] s in
          Some (set_main (MJoined (g_err (g s)))
                 (if g_cancel (g s) then cancelBySingleStageMode s1
                  else s1))
      | S _ => None
      end
  | MJoined err =>
      let '(r, logs) := classify err (isScheduledExit s) in
      Some (Run_return r (emit logs s))
  | MReturned _ => None
  end.

Definition step_poller (s : State) : option State :=
  match poller s with
  | PStart =>
      let s1 := emit [EvLog "polling the remote server"] s in
      if isSingleStageMode
      then Some (set_poller PPollSingle s1)
      else Some (set_poller PPollCont s1)
  | PPolled pollErr =>
      if negb (is_nil pollErr)
      then Some (set_poller PCancel (emit [EvLog "failure"] s))
      else Some (set_poller PCancel
                  (set_isScheduledExit (emit [EvSetScheduledExit] s)))
  | PCancel => Some (set_poller PReturn
                   (cancelBySingleStageMode (emit [EvCancel] s)))
  | PReturn => Some (set_poller PDone (task_return Poller None s))
  | PNone | PPollSingle | PPollCont | PDone => None
  end.

(** A collaborator call returns. *)
Definition step_ret (t : Thread) (r : option error) (s : State)
  : option State :=
  match t with
  | Main =>
      match main s with
      | MPing => Some (set_main (MSelect r) (emit [EvPing r] s))
      | _ => None
      end
  | Server =>
      match server s with
      | SServe => Some (set_server SDone (task_return Server r s))
      | _ => None
      end
  | Poller =>
      match poller s with
      | PPollSingle => Some (set_poller (PPolled r) (emit [EvPoll 0 r] s))
      | PPollCont =>
          Some (set_poller PReturn
                 (emit [EvPoll (Runner_Capacity config) r] s))
      | _ => None
      end
  end.

Definition step (l : Label) (s : State) : option State :=
  match l with
  | ParentCancel => Some (set_parentDone (emit [EvParentCancel] s))
  | Sched Main => step_main s
  | Sched Server => None
  | Sched Poller => step_poller s
  | Ret t r => step_ret t r s
  end.

(** Running a whole schedule; [None] when a label asks for a step that the
    source cannot take there. *)
Fixpoint exec (ls : list Label) (s : State) : option State :=
  match ls with
  | [] => Some s
  | l :: ls' =>
      match step l s with
      | Some s' => exec ls' s'
      | None => None
      end
  end.

Definition Run (ls : list Label) : option State := exec ls initial.

End Run.

Arguments isSingleStageMode : simpl never.

(** ** Observations

    What the claims talk about, read off a state or its trace. *)

(** Line 100: the status server is enabled unless the port is the string
    [false]. *)
Definition server_enabled (config : Config) : bool :=
  negb (String.eqb (Server_Port config) "false").

Definition server_running (pc : ServerPc) : bool :=
  match pc with SServe => true | SNone | SDone => false end.

Definition poller_running (pc : PollerPc) : bool :=
  match pc with PNone | PDone => false | _ => true end.

(** Lines 34-143: the poller closure has not been handed to the group. *)
Definition before_join (pc : MainPc) : bool :=
  match pc with
  | MStart | MPing | MSelect _ | MCtxErr _ | MPingErr _ | MSleep
  | MGoPoller => true
  | MWait | MJoined _ | MReturned _ => false
  end.

Definition returned (pc : MainPc) : bool :=
  match pc with MReturned _ => true | _ => false end.

(** *** The poller closure in single-stage mode *)

(** What the closure of lines 143-167 does that another thread or the
    caller can see: the poll, the failure line, the write of the flag, the
    cancellation and its return to the group. *)
Definition poller_action (ev : Event) : bool :=
  match ev with
  | EvPoll _ _ | EvSetScheduledExit | EvCancel => true
  | EvTaskReturn Poller _ => true
  | EvLog m => String.eqb m "failure"
  | _ => false
  end.

Definition poller_trace (s : State) : list Event :=
  filter poller_action (trace s).

(** Lines 153-162, for a poll that returned [pollErr]. *)
Definition single_shot_script (pollErr : option error) : list Event :=
  [ EvPoll 0 pollErr;
    match pollErr with
    | Some _ => EvLog "failure"
    | None => EvSetScheduledExit
    end;
    EvCancel;
    EvTaskReturn Poller None ].

(** *** The connection loop *)

(** The calls of lines 124 and 136. *)
Definition gate_action (ev : Event) : bool :=
  match ev with
  | EvPing _ | EvSleep _ => true
  | _ => false
  end.

Definition gate_trace (s : State) : list Event :=
  filter gate_action (trace s).

(** One round of the loop that comes back to line 124: a ping that
    failed, then the sleep of line 136. *)
Definition retry_cycle (e : error) : list Event :=
  [EvPing (Some e); EvSleep Second].

(** What the loop has done since its last completed round, by program
    counter. *)
Definition gate_tail (pc : MainPc) (tail : list Event) : Prop :=
  match pc with
  | MStart | MPing => tail = []
  | MSelect r | MCtxErr r | MPingErr r => tail = [EvPing r]
  | MSleep => exists e, tail = [EvPing (Some e)]
  | MGoPoller | MWait | MJoined _ | MReturned _ => exists r, tail = [EvPing r]
  end.

(** One round of the loop, taken by the main goroutine alone: the ping
    returns [e], both checks find the signal not fired, the failure is
    logged, the goroutine sleeps, and it is back on line 124. *)
Definition retry_round (e : error) : list Label :=
  [Ret Main (Some e); Sched Main; Sched Main; Sched Main; Sched Main].

(** ** Invariants

    Properties of states that hold at the start and are kept by every
    step; each is proved further down. *)

(** The closure of lines 143-167 only ever returns nil. *)
Definition poller_returns_nil (s : State) : Prop :=
  forall r, In (EvTaskReturn Poller r) (trace s) -> r = None.

(** Where the three threads can be relative to one another.  The group is
    the zero group throughout, its counter is the number of closures that
    were started and have not returned, the server is started by the very
    first step when enabled and never otherwise, and the poller exists
    exactly from line 143 on.  A returned [Run] left either through line
    127 or through the join. *)
Definition ctl_inv (config : Config) (s : State) : Prop :=
  g_cancel (g s) = false /\
  g_wg (g s) = ((if server_running (server s) then 1 else 0) +
                (if poller_running (poller s) then 1 else 0))%nat /\
  (server s <> SNone -> In (EvGo Server) (trace s)) /\
  (In (EvGo Server) (trace s) -> server_enabled config = true) /\
  (In (EvGo Poller) (trace s) -> poller s <> PNone) /\
  match main s with
  | MStart =>
      server s = SNone /\ poller s = PNone /\
      ~ In EvCtxDone (trace s) /\ (forall r, ~ In (EvWait r) (trace s)) /\
      (forall r, ~ In (EvPing r) (trace s))
  | MPing | MSelect _ | MCtxErr _ | MPingErr _ | MSleep | MGoPoller =>
      (server_enabled config = true -> server s <> SNone) /\
      poller s = PNone /\
      ~ In EvCtxDone (trace s) /\ (forall r, ~ In (EvWait r) (trace s))
  | MWait =>
      (server_enabled config = true -> server s <> SNone) /\
      poller s <> PNone /\
      ~ In EvCtxDone (trace s) /\ (forall r, ~ In (EvWait r) (trace s))
  | MJoined err =>
      (server_enabled config = true -> server s = SDone) /\
      poller s = PDone /\
      ~ In EvCtxDone (trace s) /\
      err = g_err (g s) /\ In (EvWait err) (trace s)
  | MReturned r =>
      (server_enabled config = true -> server s <> SNone) /\
      ((In EvCtxDone (trace s) /\ r = None /\ poller s = PNone /\
        forall r', ~ In (EvWait r') (trace s)) \/
       (~ In EvCtxDone (trace s) /\ poller s = PDone /\
        (server_enabled config = true -> server s = SDone) /\
        In (EvWait (g_err (g s))) (trace s) /\
        r = fst (classify (g_err (g s)) (isScheduledExit s))))
  end.

(** What the group holds is what the server closure returned: the group's
    error is nil until that closure returns, and is its result afterwards
    (the poller closure returns nil and so never reaches [errOnce]). *)
Definition server_inv (s : State) : Prop :=
  (main s = MStart -> server s = SNone) /\
  (g_errOnce (g s) = true -> g_err (g s) <> None) /\
  match server s with
  | SDone =>
      In (EvTaskReturn Server (g_err (g s))) (trace s) /\
      (forall r, In (EvTaskReturn Server r) (trace s) -> r = g_err (g s))
  | SNone | SServe =>
      g_err (g s) = None /\ g_errOnce (g s) = false /\
      (forall r, ~ In (EvTaskReturn Server r) (trace s))
  end.

(** Who triggers what.  [parentCtx] is cancelled by its owner only; the
    cancel function of [ctx] is called on line 161, which only the
    single-stage branch reaches, and by the deferred call when [Run]
    returns. *)
Definition cancel_inv (config : Config) (s : State) : Prop :=
  g_cancel (g s) = false /\
  (parentDone s = true -> In EvParentCancel (trace s)) /\
  (cancelled s = true ->
   In EvCancel (trace s) \/ returned (main s) = true) /\
  (In EvCancel (trace s) -> isSingleStageMode config = true) /\
  (In EvSetScheduledExit (trace s) -> isSingleStageMode config = true) /\
  (isScheduledExit s = true -> In EvSetScheduledExit (trace s)) /\
  match poller s with
  | PPollSingle | PPolled _ | PCancel => isSingleStageMode config = true
  | PPollCont => isSingleStageMode config = false
  | PNone | PStart | PReturn | PDone => True
  end.

(** In single-stage mode: how far into its script the poller closure is,
    by program counter, and the value of the flag there. *)
Definition script_inv (s : State) : Prop :=
  (before_join (main s) = true -> poller s = PNone) /\
  match poller s with
  | PNone | PStart | PPollSingle =>
      poller_trace s = [] /\ isScheduledExit s = false
  | PPolled e =>
      poller_trace s = firstn 1 (single_shot_script e) /\
      isScheduledExit s = false
  | PCancel =>
      exists e, poller_trace s = firstn 2 (single_shot_script e) /\
                isScheduledExit s = is_nil e
  | PReturn =>
      exists e, poller_trace s = firstn 3 (single_shot_script e) /\
                isScheduledExit s = is_nil e
  | PDone =>
      exists e, poller_trace s = single_shot_script e /\
                isScheduledExit s = is_nil e
  | PPollCont => False
  end.

(** The pings and sleeps so far: completed rounds, then what [gate_tail]
    allows. *)
Definition gate_inv (s : State) : Prop :=
  exists es tail,
    gate_trace s = (flat_map retry_cycle es ++ tail)%list /\
    gate_tail (main s) tail.

(** The loop is left towards line 143 only after a ping that succeeded or
    with [parentCtx] cancelled; until then nothing has called the cancel
    function of [ctx] and the poller does not exist. *)
Definition loop_inv (s : State) : Prop :=
  g_cancel (g s) = false /\
  (parentDone s = true -> In EvParentCancel (trace s)) /\
  match main s with
  | MStart | MPing | MSleep => cancelled s = false /\ poller s = PNone
  | MSelect e | MCtxErr e | MPingErr e =>
      cancelled s = false /\ poller s = PNone /\ In (EvPing e) (trace s)
  | MGoPoller =>
      cancelled s = false /\ poller s = PNone /\
      (In (EvPing None) (trace s) \/ In EvParentCancel (trace s))
  | MWait | MJoined _ =>
      In (EvPing None) (trace s) \/ In EvParentCancel (trace s)
  | MReturned _ =>
      poller s <> PNone ->
      In (EvPing None) (trace s) \/ In EvParentCancel (trace s)
  end.

(** ** Scenarios

    Configurations and schedules used to run the model. *)

Definition single_stage_no_server : Config :=
  {| Runner_Name := "runner"; Runner_Capacity := 0; Server_Port := "false" |}.

Definition single_stage_with_server : Config :=
  {| Runner_Name := "runner"; Runner_Capacity := 0; Server_Port := ":3000" |}.

Definition continuous_no_server : Config :=
  {| Runner_Name := "runner"; Runner_Capacity := 2; Server_Port := "false" |}.

Definition continuous_with_server : Config :=
  {| Runner_Name := "runner"; Runner_Capacity := 2; Server_Port := ":3000" |}.

(** Lines 34-143 with a first ping that succeeds: set-up, the ping, the
    two checks of the signal, the success line, the start of the poller. *)
Definition connect : list Label :=
  [Sched Main; Ret Main None; Sched Main; Sched Main; Sched Main; Sched Main].

(** The poller closure in single-stage mode, for a poll returning [r]. *)
Definition poll_once (r : option error) : list Label :=
  [Sched Poller; Ret Poller r; Sched Poller; Sched Poller; Sched Poller].

(** The poller closure in continuous mode, for a poll returning [r]. *)
Definition poll_until (r : option error) : list Label :=
  [Sched Poller; Ret Poller r; Sched Poller].

(** [g.Wait] returns, then lines 171-180. *)
Definition join : list Label := [Sched Main; Sched Main].

(** The state a schedule leads to ([initial] when it cannot be run). *)
Definition state_after (config : Config) (ls : list Label) : State :=
  match Run config ls with
  | Some s => s
  | None => initial
  end.

(** A single-stage run with the status server on: the poll succeeds, the
    server unwinds with the cancellation condition, and the join's error
    is classified as a scheduled exit. *)
Definition scheduled_exit_run : list Label :=
  connect ++ poll_once None ++ [Ret Server (Some Canceled); Sched Main].

(** A continuous run with the status server on: the poll fails, the server
    fails next, and the join holds the server's error. *)
Definition server_failure_run : list Label :=
  connect ++ poll_until (Some (Failure "poll")) ++
  [Ret Server (Some (Failure "listen")); Sched Main].

(** A single-stage run without status server whose poll fails. *)
Definition failed_poll_run : list Label :=
  connect ++ poll_once (Some (Failure "poll")).

(** The server refuses the first ping; the runner sleeps and is about to
    ping again. *)
Definition one_retry_run : list Label :=
  Sched Main :: retry_round (Failure "connection refused").

(** [parentCtx] is cancelled while the main goroutine is inside its first
    ping, which then fails. *)
Definition cancelled_in_ping : list Label :=
  [Sched Main; ParentCancel; Ret Main (Some (Failure "connection refused"))].

(** The same, followed by the check of line 126. *)
Definition cancelled_at_gate : list Label :=
  (cancelled_in_ping ++ [Sched Main])%list.

(** A continuous run whose poll fails, up to the return of the poller
    closure. *)
Definition poll_failure_run : list Label :=
  (connect ++ poll_until (Some (Failure "poll")))%list.

(** A single-stage run with the status server on: the poll fails, the
    closure cancels and returns, the server unwinds with the cancellation
    condition, and [Run] goes through the join. *)
Definition failed_single_stage_run : list Label :=
  (connect ++ poll_once (Some (Failure "poll")) ++
   [Ret Server (Some Canceled)] ++ join)%list.

(** The status server fails while the poller is inside its poll. *)
Definition server_fails_first : list Label :=
  (connect ++ [Sched Poller; Ret Server (Some (Failure "listen"))])%list.

(** ** Further observations and invariants *)

(** [Run] has returned exactly when its return is in the trace, and the
    deferred call of line 35 has then fired the signal. *)
Definition return_inv (s : State) : Prop :=
  match main s with
  | MReturned r =>
      cancelled s = true /\ In (EvReturn r) (trace s) /\
      (forall r', In (EvReturn r') (trace s) -> r' = r)
  | _ => forall r', ~ In (EvReturn r') (trace s)
  end.

(** Lines 165-166, for a poll that returned [r]: what the poller closure
    does in continuous mode. *)
Definition continuous_script (config : Config) (r : option error)
  : list Event :=
  [EvPoll (Runner_Capacity config) r; EvTaskReturn Poller None].

(** In continuous mode: how far into its script the poller closure is. *)
Definition continuous_inv (config : Config) (s : State) : Prop :=
  (before_join (main s) = true -> poller s = PNone) /\
  match poller s with
  | PNone | PStart | PPollCont => poller_trace s = []
  | PReturn =>
      exists r, poller_trace s = firstn 1 (continuous_script config r)
  | PDone => exists r, poller_trace s = continuous_script config r
  | PPollSingle | PPolled _ | PCancel => False
  end.

Definition is_Go (t : Thread) (ev : Event) : bool :=
  match ev, t with
  | EvGo Main, Main | EvGo Server, Server | EvGo Poller, Poller => true
  | _, _ => false
  end.

(** How many times a closure for [t] was handed to [g.Go]. *)
Definition Go_count (t : Thread) (s : State) : nat :=
  length (filter (is_Go t) (trace s)).

(** Each closure is handed to the group when its thread comes to exist,
    and only then. *)
Definition spawn_inv (s : State) : Prop :=
  (main s = MStart -> server s = SNone) /\
  (before_join (main s) = true -> poller s = PNone) /\
  Go_count Main s = 0%nat /\
  Go_count Server s = (match server s with SNone => 0 | _ => 1 end)%nat /\
  Go_count Poller s = (match poller s with PNone => 0 | _ => 1 end)%nat.





(** How many steps the main goroutine is from line 169 at most, when the
    next ping succeeds. *)
Definition main_rank (pc : MainPc) : nat :=
  match pc with
  | MSelect (Some _) => 9
  | MCtxErr (Some _) => 8
  | MPingErr (Some _) => 7
  | MStart | MSleep => 6
  | MPing => 5
  | MSelect None => 4
  | MCtxErr None => 3
  | MPingErr None => 2
  | MGoPoller => 1
  | MWait | MJoined _ | MReturned _ => 0
  end.

(** How many steps the poller closure is from its return at most. *)
Definition poller_rank (pc : PollerPc) : nat :=
  match pc with
  | PStart => 5
  | PPollSingle => 4
  | PPolled _ => 3
  | PCancel | PPollCont => 2
  | PReturn => 1
  | PNone | PDone => 0
  end.

(** ** setupLogger *)

(** The levels of logrus, least verbose first. *)
Inductive Level : Type :=
| PanicLevel | FatalLevel | ErrorLevel | WarnLevel
| InfoLevel | DebugLevel | TraceLevel.

(** [lumberjackrus.LogFile], with the fields lines 201-206 fill in. *)
Record LogFile : Type := {
  Filename : string;
  MaxSize : Z;
  MaxBackups : Z;
  MaxAge : Z
}.

(** The fields of [Config] that [setupLogger] reads ([config.Debug],
    [config.Trace] and [config.Logger]). *)
Record LogSettings : Type := {
  Config_Debug : bool;
  Config_Trace : bool;
  Logger_File : string;
  Logger_MaxSize : Z;
  Logger_MaxBackups : Z;
  Logger_MaxAge : Z
}.

Section SetupLogger.

(** What [lumberjackrus.NewHook] makes, and the call itself, given the log
    file and the minimum level: a hook or an error. *)
Variable Hook : Type.
Variable NewHook : LogFile -> Level -> Hook + error.

(** The process-wide logging state [setupLogger] writes: whether
    [logger.Default] has been set to the logrus adapter, the level of the
    standard logger, and its hooks in the order they were added. *)
Record Logging : Type := {
  log_Default : bool;
  log_level : Level;
  log_hooks : list Hook
}.

Definition SetLevel (l : Level) (st : Logging) : Logging :=
  {| log_Default := log_Default st; log_level := l;
     log_hooks := log_hooks st |}.

Definition AddHook (h : Hook) (st : Logging) : Logging :=
  {| log_Default := log_Default st; log_level := log_level st;
     log_hooks := log_hooks st ++ [h] |}.

(** Lines 201-206. *)
Definition Logger_LogFile (config : LogSettings) : LogFile :=
  {| Filename := Logger_File config;
     MaxSize := Logger_MaxSize config;
     MaxBackups := Logger_MaxBackups config;
     MaxAge := Logger_MaxAge config |}.

(** Lines 185-216: the error returned and the logging state left. *)
Definition setupLogger (config : LogSettings) (st : Logging)
  : option error * Logging :=
  let st0 := {| log_Default := true; log_level := log_level st;
                log_hooks := log_hooks st |} in
  let st1 := if Config_Debug config then SetLevel DebugLevel st0 else st0 in
  let st2 := if Config_Trace config then SetLevel TraceLevel st1 else st1 in
  if String.eqb (Logger_File config) EmptyString
  then (None, st2)
  else
    match NewHook (Logger_LogFile config) TraceLevel with
    | inr err => (Some err, st2)
    | inl hook => (None, AddHook hook st2)
    end.

(** The level [setupLogger] leaves. *)
Definition level_after (config : LogSettings) (old : Level) : Level :=
  if Config_Trace config then TraceLevel
  else if Config_Debug config then DebugLevel
  else old.

End SetupLogger.

Arguments log_Default {Hook}.
Arguments log_level {Hook}.
Arguments log_hooks {Hook}.

(** A continuous run with the status server on that is asked to stop
    from outside: [parentCtx] is cancelled during the poll, the poll and
    the server unwind, the server with the cancellation condition, and
    [Run] goes through the join. *)
Definition external_shutdown_run : list Label :=
  (connect ++
   [Sched Poller; ParentCancel; Ret Poller None; Sched Poller;
    Ret Server (Some Canceled)] ++ join)%list.

(** ** Tactics *)

(** Case analysis on one step: splits on the label and on the program
    counter of the thread that moves, and leaves one goal per branch of the
    source with the new state written out. *)
Ltac break_step H :=
  repeat match type of H with
         | context [match ?x with _ => _ end] =>
             destruct x eqn:?; try discriminate
         | context [if ?b then _ else _] =>
             destruct b eqn:?; try discriminate
         end.

Ltac step_cases H :=
  match type of H with
  | step _ ?l ?s = Some _ =>
      destruct s as [pd cn fl [gc gw go ge] m sv pl tr];
      destruct l as [|[| |]|[| |] ?];
      cbn -[String.eqb Z.ltb] in H; try discriminate;
      unfold step_main, step_poller, task_return, Group_done, classify,
        Run_return in H;
      cbn -[String.eqb Z.ltb] in H;
      break_step H;
      repeat match goal with
             | Hq : (match ?x with _ => _ end) = (_, _) |- _ =>
                 destruct x eqn:?
             | Hq : (if ?b then _ else _) = (_, _) |- _ =>
                 destruct b eqn:?
             | Hq : (_, _) = (_, _) |- _ => inversion Hq; subst; clear Hq
             end;
      inversion H; subst; clear H;
      cbn -[String.eqb Z.ltb] in *
  end.

Ltac in_trace :=
  repeat rewrite in_app_iff in *; cbn [In] in *.

(** Takes the invariant of the old state apart, then the one to prove for
    the new state, so that what is left are small goals about membership
    in the trace. *)
Ltac open_inv :=
  repeat match goal with
         | H : _ /\ _ |- _ => destruct H
         | H : (_ /\ _) \/ (_ /\ _) |- _ => destruct H
         end;
  repeat match goal with
         | |- _ /\ _ => split
         | |- forall _, _ => intro
         | |- ~ _ => intro
         end;
  in_trace.

Ltac close_leaf :=
  first [ assumption
        | congruence
        | solve [intuition (subst; try congruence; try lia; eauto;
                            try solve [exfalso; eauto])] ].

Ltac close_inv :=
  first [ close_leaf
        | left; open_inv; close_leaf
        | right; open_inv; close_leaf ].

Ltac split_pcs :=
  repeat match goal with
         | m : MainPc |- _ => destruct m
         end.

Ltac in_list := repeat (first [left; reflexivity | right]).

Ltac conjuncts := repeat match goal with |- _ /\ _ => split end.

(** ** Invariants of executions *)

Section Invariants.

Variable config : Config.

(** A property that holds initially and that every step keeps holds in
    every state an execution reaches. *)
Lemma exec_invariant (P : State -> Prop) :
  (forall l s s', P s -> step config l s = Some s' -> P s') ->
  forall ls s s', P s -> exec config ls s = Some s' -> P s'.
Proof.
  intros Hstep ls; induction ls as [|l ls IH]; intros s s' Hs Hex; simpl in Hex.
  - now inversion Hex; subst.
  - destruct (step config l s) as [s1|] eqn:E; [|discriminate].
    eapply IH; [|exact Hex]. eapply Hstep; eauto.
Qed.

Lemma Run_invariant (P : State -> Prop) :
  P initial ->
  (forall l s s', P s -> step config l s = Some s' -> P s') ->
  forall ls s, Run config ls = Some s -> P s.
Proof.
  intros H0 Hstep ls s Hrun. eapply exec_invariant; eauto.
Qed.

Lemma exec_app ls1 ls2 s s1 :
  exec config ls1 s = Some s1 ->
  exec config (ls1 ++ ls2) s = exec config ls2 s1.
Proof.
  revert s; induction ls1 as [|l ls1 IH]; intros s H; simpl in *.
  - now inversion H.
  - destruct (step config l s); [auto|discriminate].
Qed.

End Invariants.

Section Facts.

Variable config : Config.

Lemma ctl_inv_reach ls s : Run config ls = Some s -> ctl_inv config s.
Proof.
  apply Run_invariant.
  - unfold ctl_inv; simpl. intuition congruence.
  - intros l s0 s' IH H. unfold ctl_inv, server_enabled in *.
    step_cases H; split_pcs; open_inv; try close_inv;
      destruct sv, pl; simpl in *; try discriminate; try close_inv;
      right; open_inv; subst; simpl;
      repeat match goal with
             | Hb : is_Canceled _ && _ = _ |- _ => rewrite Hb
             end; close_leaf.
Qed.

Lemma poller_returns_nil_inv ls s :
  Run config ls = Some s -> poller_returns_nil s.
Proof.
  apply Run_invariant.
  - intros r [].
  - intros l s0 s' IH H r; unfold poller_returns_nil in IH.
    step_cases H; in_trace; intuition (try congruence; eauto).
Qed.

End Facts.

Section Errors_and_cancellation.

Variable config : Config.

Lemma server_inv_reach ls s : Run config ls = Some s -> server_inv s.
Proof.
  apply Run_invariant.
  - unfold server_inv; simpl. intuition congruence.
  - intros l s0 s' IH H. unfold server_inv in *.
    step_cases H;
      repeat match goal with sv : ServerPc |- _ => destruct sv end;
      open_inv; try close_inv.
Qed.

Lemma cancel_inv_reach ls s : Run config ls = Some s -> cancel_inv config s.
Proof.
  apply Run_invariant.
  - unfold cancel_inv; simpl. intuition congruence.
  - intros l s0 s' IH H. unfold cancel_inv in *.
    step_cases H;
      repeat match goal with pl : PollerPc |- _ => destruct pl end;
      open_inv; simpl in *; try close_inv.
Qed.

End Errors_and_cancellation.

Section SingleStage.

Variable config : Config.
Hypothesis single : isSingleStageMode config = true.

Lemma script_inv_reach ls s : Run config ls = Some s -> script_inv s.
Proof.
  apply Run_invariant.
  - unfold script_inv; simpl; auto.
  - intros l s0 s' [Hb IH] H. unfold script_inv, poller_trace in *.
    step_cases H;
      repeat match goal with pl : PollerPc |- _ => destruct pl end;
      try congruence; try contradiction;
      try (specialize (Hb eq_refl); discriminate);
      (split; [intuition congruence|]);
      rewrite ?filter_app; simpl in *; rewrite ?app_nil_r;
      try assumption;
      repeat match goal with
             | Hx : exists _, _ |- _ => destruct Hx as [? [? ?]]
             | Hx : _ /\ _ |- _ => destruct Hx
             | e : option error |- _ => destruct e
             end;
      simpl in *; try discriminate;
      repeat match goal with
             | Hx : filter _ _ = _ |- _ => rewrite Hx
             end;
      subst; simpl;
      try solve [ eauto
                | eexists (Some _); split; reflexivity
                | exists None; split; reflexivity ].
Qed.

End SingleStage.

Section Gate.

Variable config : Config.

Lemma gate_inv_reach ls s : Run config ls = Some s -> gate_inv s.
Proof.
  apply Run_invariant.
  - exists [], []; simpl; auto.
  - intros l s0 s' (es & tail & Hg & Ht) H.
    unfold gate_inv, gate_trace in *.
    step_cases H; rewrite ?filter_app, Hg; simpl in *;
      rewrite ?app_nil_r;
      try solve [exists es, tail; split; [reflexivity | exact Ht]];
      try solve [exists es, tail; split; [reflexivity | eauto]].
    + subst tail. destruct err as [e|]; [|discriminate].
      exists es, [EvPing (Some e)]; split; eauto.
    + destruct Ht as [e ->].
      exists (es ++ [e])%list, []; rewrite flat_map_app; simpl.
      rewrite !app_nil_r, <- app_assoc; auto.
    + subst tail; rewrite app_nil_r.
      exists es, [EvPing r]; split; [reflexivity | simpl; auto].
Qed.

Lemma loop_inv_reach ls s : Run config ls = Some s -> loop_inv s.
Proof.
  apply Run_invariant.
  - unfold loop_inv; simpl. intuition congruence.
  - intros l s0 s' IH H. unfold loop_inv in *.
    step_cases H; split_pcs; open_inv; simpl in *;
      unfold ctx_done in *; simpl in *;
      rewrite ?orb_true_iff in *;
      repeat match goal with
             | e : option error |- _ => destruct e; try discriminate
             end;
      try close_inv.
Qed.

End Gate.

(** ** Shutdown classification *)

Lemma classify_flag_false err : fst (classify err false) = err.
Proof.
  destruct err as [e|]; simpl; [|reflexivity].
  now rewrite andb_false_r.
Qed.

Lemma classify_result err flag e :
  fst (classify err flag) = Some e -> err = Some e.
Proof.
  destruct err as [e'|]; simpl; [|discriminate].
  destruct (is_Canceled e' && flag); simpl; congruence.
Qed.

Lemma is_Canceled_true e : is_Canceled e = true <-> e = Canceled.
Proof. destruct e; simpl; split; congruence. Qed.

Section Join.

Variable config : Config.

(** C3. Once the join has produced [err] ([g.Wait] returned), [Run]
    returns: nil when [err] is [context.Canceled] and the scheduled-exit
    flag is set, nil when [err] is nil, and [err] itself in every other
    case.  The flag read here is final, the poller closure having
    returned, and [err] is the error the group retained. *)
Theorem Run_classifies_join ls s err :
  Run config ls = Some s ->
  main s = MJoined err ->
  poller s = PDone /\ err = g_err (g s) /\
  exists s' r,
    step config (Sched Main) s = Some s' /\
    main s' = MReturned r /\
    (err = Some Canceled -> isScheduledExit s = true -> r = None) /\
    (err = None -> r = None) /\
    (forall e, err = Some e ->
               ~ (e = Canceled /\ isScheduledExit s = true) -> r = Some e).
Proof.
  intros Hrun Hm.
  pose proof (ctl_inv_reach config ls s Hrun) as Hc.
  unfold ctl_inv in Hc; rewrite Hm in Hc.
  destruct Hc as (_ & _ & _ & _ & _ & _ & Hp & _ & He & _).
  split; [exact Hp|]. split; [exact He|].
  unfold step, step_main; rewrite Hm.
  destruct (classify err (isScheduledExit s)) as [r logs] eqn:Hcl.
  exists (Run_return r (emit logs s)), r.
  split; [reflexivity|]. split; [reflexivity|].
  unfold classify in Hcl.
  destruct err as [e|].
  - destruct (is_Canceled e && isScheduledExit s) eqn:Hb;
      inversion Hcl; subst; clear Hcl.
    + apply andb_true_iff in Hb; destruct Hb as [Hb1 Hb2].
      apply is_Canceled_true in Hb1.
      repeat split; intros; try congruence.
      exfalso. match goal with Hn : ~ _ |- _ => apply Hn end.
      split; congruence.
    + apply andb_false_iff in Hb.
      repeat split; intros; try congruence.
      destruct Hb as [Hb|Hb]; [|congruence].
      match goal with Hx : Some e = Some Canceled |- _ =>
        inversion Hx; subst; discriminate end.
  - inversion Hcl; subst. repeat split; intros; congruence.
Qed.

End Join.

Lemma Run_classifies_join_witness :
  Run single_stage_with_server scheduled_exit_run
    = Some (state_after single_stage_with_server scheduled_exit_run) /\
  main (state_after single_stage_with_server scheduled_exit_run)
    = MJoined (Some Canceled) /\
  poller (state_after single_stage_with_server scheduled_exit_run) = PDone.
Proof.
  assert (Hrun : Run single_stage_with_server scheduled_exit_run
                 = Some (state_after single_stage_with_server
                           scheduled_exit_run))
    by (vm_compute; reflexivity).
  assert (Hm : main (state_after single_stage_with_server scheduled_exit_run)
               = MJoined (Some Canceled))
    by (vm_compute; reflexivity).
  split; [exact Hrun|]. split; [exact Hm|].
  exact (proj1 (Run_classifies_join single_stage_with_server
                  scheduled_exit_run _ (Some Canceled) Hrun Hm)).
Defined.

(** ** What the poller closure hands to the group *)

Section PollerTask.

Variable config : Config.

(** C9. In both modes the closure of lines 143-167 returns nil to the
    group, so a non-nil error held by the group, and hence a non-nil error
    produced by the join, is one that [server.ListenAndServe] returned. *)
Theorem poller_task_returns_nil ls s :
  Run config ls = Some s ->
  (forall r, In (EvTaskReturn Poller r) (trace s) -> r = None) /\
  (forall e, g_err (g s) = Some e ->
             In (EvTaskReturn Server (Some e)) (trace s)) /\
  (forall e, main s = MJoined (Some e) ->
             In (EvTaskReturn Server (Some e)) (trace s)).
Proof.
  intros Hrun.
  pose proof (poller_returns_nil_inv config ls s Hrun) as Hp.
  pose proof (server_inv_reach config ls s Hrun) as (_ & _ & Hs).
  pose proof (ctl_inv_reach config ls s Hrun) as Hc.
  assert (Hg : forall e, g_err (g s) = Some e ->
                         In (EvTaskReturn Server (Some e)) (trace s)).
  { intros e He. destruct (server s).
    - destruct Hs as [Hn _]; congruence.
    - destruct Hs as [Hn _]; congruence.
    - destruct Hs as [Hin _]. now rewrite He in Hin. }
  split; [exact Hp|]. split; [exact Hg|].
  intros e Hm. unfold ctl_inv in Hc; rewrite Hm in Hc.
  destruct Hc as (_ & _ & _ & _ & _ & _ & _ & _ & He & _).
  apply Hg; congruence.
Qed.

End PollerTask.

Lemma poller_task_returns_nil_witness :
  Run continuous_with_server server_failure_run
    = Some (state_after continuous_with_server server_failure_run) /\
  main (state_after continuous_with_server server_failure_run)
    = MJoined (Some (Failure "listen")) /\
  In (EvTaskReturn Server (Some (Failure "listen")))
     (trace (state_after continuous_with_server server_failure_run)).
Proof.
  assert (Hrun : Run continuous_with_server server_failure_run
                 = Some (state_after continuous_with_server
                           server_failure_run))
    by (vm_compute; reflexivity).
  assert (Hm : main (state_after continuous_with_server server_failure_run)
               = MJoined (Some (Failure "listen")))
    by (vm_compute; reflexivity).
  split; [exact Hrun|]. split; [exact Hm|].
  exact (proj2 (proj2 (poller_task_returns_nil continuous_with_server
                         server_failure_run _ Hrun)) _ Hm).
Defined.

(** ** Single-stage mode *)

Lemma single_stage_capacity config :
  Runner_Capacity config < 1 <-> isSingleStageMode config = true.
Proof. unfold isSingleStageMode. symmetry. apply Z.ltb_lt. Qed.

Lemma continuous_capacity config :
  1 <= Runner_Capacity config <-> isSingleStageMode config = false.
Proof. unfold isSingleStageMode. rewrite Z.ltb_ge. tauto. Qed.

Section SingleStageClaims.

Variable config : Config.


End SingleStageClaims.


(** ** The retry interval of the connection loop *)

Section GateClaims.

Variable config : Config.

Lemma retry_round_exec s e :
  main s = MPing -> ctx_done s = false ->
  exists s',
    exec config (retry_round e) s = Some s' /\
    main s' = MPing /\ ctx_done s' = false /\
    trace s' = (trace s ++ [EvPing (Some e);
                            EvLog "cannot ping the remote server";
                            EvSleep Second])%list.
Proof.
  intros Hm Hc. destruct s as [pd cn fl gr m sv pl tr].
  unfold ctx_done in *; simpl in *; subst m.
  unfold retry_round, exec, step, step_ret, step_main, ctx_done; simpl.
  rewrite Hc; simpl. rewrite Hc; simpl.
  eexists; split; [reflexivity|]. simpl.
  rewrite <- !app_assoc; simpl. auto.
Qed.

Lemma retry_rounds_reach e n :
  exists ls s,
    Run config ls = Some s /\ main s = MPing /\ ctx_done s = false /\
    gate_trace s = flat_map retry_cycle (repeat e n).
Proof.
  induction n as [|n (ls & s & Hrun & Hm & Hc & Hg)].
  - exists [Sched Main]. unfold Run, exec, step, step_main; simpl.
    destruct (negb (Server_Port config =? "false")%string);
      eexists; split; try reflexivity; simpl; auto.
  - destruct (retry_round_exec s e Hm Hc) as (s' & Hex & Hm' & Hc' & Ht).
    exists (ls ++ retry_round e)%list, s'.
    split; [unfold Run; rewrite (exec_app config _ _ _ _ Hrun); exact Hex|].
    split; [exact Hm'|]. split; [exact Hc'|].
    replace (S n) with (n + 1)%nat by lia.
    rewrite repeat_app, flat_map_app.
    unfold gate_trace in *; rewrite Ht, filter_app, Hg; simpl.
    rewrite ?app_nil_r; reflexivity.
Qed.

(** C8. The pings and sleeps of an execution are a sequence of rounds,
    each a failed ping followed by one sleep of exactly [time.Second],
    followed by at most the ping of the round in progress; so every sleep
    lasts one second, whatever number of rounds came before.  From line
    124 with the signal not fired, a failed ping leads back to line 124
    through exactly one such sleep, with the signal still not fired; and
    for every number there is an execution with that many rounds behind it
    that is still in the loop. *)
Theorem gate_retry_interval ls s :
  Run config ls = Some s ->
  (exists es tail,
     gate_trace s = (flat_map retry_cycle es ++ tail)%list /\
     gate_tail (main s) tail) /\
  (forall d, In (EvSleep d) (trace s) -> d = Second) /\
  (main s = MPing -> ctx_done s = false ->
   forall e, exists s',
     exec config (retry_round e) s = Some s' /\
     main s' = MPing /\ ctx_done s' = false /\
     gate_trace s' = (gate_trace s ++ retry_cycle e)%list) /\
  (forall e n, exists ls' s',
     Run config ls' = Some s' /\ main s' = MPing /\
     gate_trace s' = flat_map retry_cycle (repeat e n)).
Proof.
  intros Hrun.
  pose proof (gate_inv_reach config ls s Hrun) as Hg.
  split; [exact Hg|]. split; [|split].
  - intros d Hin.
    assert (Hin' : In (EvSleep d) (gate_trace s))
      by (apply filter_In; split; [exact Hin|reflexivity]).
    destruct Hg as (es & tail & Heq & Ht). rewrite Heq in Hin'.
    apply in_app_iff in Hin'. destruct Hin' as [Hin'|Hin'].
    + apply in_flat_map in Hin'. destruct Hin' as (e & _ & [He|[He|[]]]);
        congruence.
    + destruct (main s); simpl in Ht;
        repeat match goal with
               | Hx : exists _, _ |- _ => destruct Hx
               end; subst tail; simpl in Hin'; intuition congruence.
  - intros Hm Hc e.
    destruct (retry_round_exec s e Hm Hc) as (s' & Hex & Hm' & Hc' & Ht).
    exists s'. repeat split; auto.
    unfold gate_trace; rewrite Ht, filter_app; reflexivity.
  - intros e n.
    destruct (retry_rounds_reach e n) as (ls' & s' & H1 & H2 & _ & H3).
    eauto.
Qed.

End GateClaims.

Lemma gate_retry_interval_witness :
  Run continuous_no_server one_retry_run
    = Some (state_after continuous_no_server one_retry_run) /\
  gate_trace (state_after continuous_no_server one_retry_run)
    = [EvPing (Some (Failure "connection refused")); EvSleep Second] /\
  forall d,
    In (EvSleep d) (trace (state_after continuous_no_server one_retry_run)) ->
    d = Second.
Proof.
  assert (Hrun : Run continuous_no_server one_retry_run
                 = Some (state_after continuous_no_server one_retry_run))
    by (vm_compute; reflexivity).
  split; [exact Hrun|]. split; [vm_compute; reflexivity|].
  exact (proj1 (proj2 (gate_retry_interval continuous_no_server
                         one_retry_run _ Hrun))).
Defined.

(** ** The connection loop and the two tasks *)

Lemma server_enabled_true config :
  server_enabled config = true <-> Server_Port config <> "false".
Proof.
  unfold server_enabled. rewrite negb_true_iff. apply String.eqb_neq.
Qed.

Lemma server_enabled_false config :
  server_enabled config = false <-> Server_Port config = "false".
Proof.
  unfold server_enabled. rewrite negb_false_iff. apply String.eqb_eq.
Qed.

Section GateAndTasks.

Variable config : Config.

(** C2, as the code has it.  The poller is started only once the loop is
    over: until line 143 has run there is no poller, and when there is one
    a ping has succeeded or [parentCtx] has been cancelled.  The status
    server is not held back by the loop: when enabled it is started by the
    set-up, so it exists whenever the main goroutine is past line 119, and
    no ping has returned before that. *)
Theorem poller_starts_after_gate ls s :
  Run config ls = Some s ->
  (before_join (main s) = true ->
   poller s = PNone /\ ~ In (EvGo Poller) (trace s)) /\
  (poller s <> PNone ->
   In (EvPing None) (trace s) \/ In EvParentCancel (trace s)) /\
  (Server_Port config <> "false" -> main s <> MStart ->
   server s <> SNone /\ In (EvGo Server) (trace s)) /\
  (main s = MStart -> forall r, ~ In (EvPing r) (trace s)).
Proof.
  intros Hrun.
  pose proof (ctl_inv_reach config ls s Hrun) as Hc.
  pose proof (loop_inv_reach config ls s Hrun) as Hl.
  unfold ctl_inv in Hc. unfold loop_inv in Hl.
  destruct Hc as (_ & _ & Hgo & _ & Hgp & Hc).
  destruct Hl as (_ & _ & Hl).
  split; [|split; [|split]].
  - intros Hb.
    assert (Hp : poller s = PNone)
      by (destruct (main s); simpl in *; try discriminate; tauto).
    split; [exact Hp|]. intros Hin. apply Hgp in Hin. congruence.
  - intros Hp. destruct (main s); simpl in *; tauto.
  - intros Hport Hm. apply server_enabled_true in Hport.
    assert (Hs : server s <> SNone)
      by (destruct (main s); simpl in *; intuition congruence).
    split; [exact Hs|]. apply Hgo, Hs.
  - intros Hm r. rewrite Hm in Hc. destruct Hc as (_ & _ & _ & _ & Hp).
    apply Hp.
Qed.

(** C6, as the code has it.  Once the check on line 126 has found the
    signal fired, [Run] has returned nil and the poller was never started;
    the status server was never started exactly when it is disabled, and
    has been started, before the loop, when it is enabled. *)
Theorem gate_cancelled_returns_nil ls s :
  Run config ls = Some s ->
  In EvCtxDone (trace s) ->
  main s = MReturned None /\
  poller s = PNone /\ ~ In (EvGo Poller) (trace s) /\
  (Server_Port config = "false" ->
   server s = SNone /\ ~ In (EvGo Server) (trace s)) /\
  (Server_Port config <> "false" ->
   server s <> SNone /\ In (EvGo Server) (trace s)).
Proof.
  intros Hrun Hin.
  pose proof (ctl_inv_reach config ls s Hrun) as Hc.
  unfold ctl_inv in Hc.
  destruct Hc as (_ & _ & Hgo & Hen & Hgp & Hc).
  assert (Hret : main s = MReturned None /\ poller s = PNone /\
                 (server_enabled config = true -> server s <> SNone)).
  { destruct (main s); try tauto.
    destruct Hc as (Hs & [(_ & -> & Hp & _) | (Hn & _)]); tauto. }
  destruct Hret as (Hm & Hp & Hs).
  split; [exact Hm|]. split; [exact Hp|].
  split; [intros Hx; apply Hgp in Hx; congruence|].
  split.
  - intros Hport. apply server_enabled_false in Hport.
    assert (Hn : ~ In (EvGo Server) (trace s))
      by (intros Hx; apply Hen in Hx; congruence).
    split; [|exact Hn].
    destruct (server s) eqn:Hsv; [reflexivity| |];
      exfalso; apply Hn, Hgo; congruence.
  - intros Hport. apply server_enabled_true in Hport.
    split; [auto|]. apply Hgo; auto.
Qed.



End GateAndTasks.

(** With the status server enabled, the set-up alone starts it: it is
    running while the main goroutine is inside the first ping. *)
Lemma server_started_before_gate :
  Run continuous_with_server [Sched Main]
    = Some (state_after continuous_with_server [Sched Main]) /\
  main (state_after continuous_with_server [Sched Main]) = MPing /\
  gate_trace (state_after continuous_with_server [Sched Main]) = [] /\
  server (state_after continuous_with_server [Sched Main]) = SServe /\
  In (EvGo Server) (trace (state_after continuous_with_server [Sched Main])).
Proof.
  conjuncts; try (vm_compute; reflexivity).
  vm_compute. in_list.
Qed.

Lemma poller_starts_after_gate_witness :
  Run continuous_with_server connect
    = Some (state_after continuous_with_server connect) /\
  poller (state_after continuous_with_server connect) = PStart /\
  (In (EvPing None) (trace (state_after continuous_with_server connect)) \/
   In EvParentCancel (trace (state_after continuous_with_server connect))).
Proof.
  assert (Hrun : Run continuous_with_server connect
                 = Some (state_after continuous_with_server connect))
    by (vm_compute; reflexivity).
  assert (Hp : poller (state_after continuous_with_server connect) = PStart)
    by (vm_compute; reflexivity).
  split; [exact Hrun|]. split; [exact Hp|].
  apply (proj1 (proj2 (poller_starts_after_gate continuous_with_server
                         connect _ Hrun))).
  rewrite Hp; discriminate.
Defined.

(** The signal fires during a failing first ping and line 126 sees it:
    [Run] returns nil, with no ping having succeeded, and the status
    server has been started all the same. *)
Lemma gate_cancelled_with_server_started :
  Run continuous_with_server cancelled_at_gate
    = Some (state_after continuous_with_server cancelled_at_gate) /\
  gate_trace (state_after continuous_with_server cancelled_at_gate)
    = [EvPing (Some (Failure "connection refused"))] /\
  main (state_after continuous_with_server cancelled_at_gate)
    = MReturned None /\
  server (state_after continuous_with_server cancelled_at_gate) = SServe /\
  In (EvGo Server)
     (trace (state_after continuous_with_server cancelled_at_gate)).
Proof.
  conjuncts; try (vm_compute; reflexivity).
  vm_compute. in_list.
Qed.

Lemma gate_cancelled_returns_nil_witness :
  Run continuous_no_server cancelled_at_gate
    = Some (state_after continuous_no_server cancelled_at_gate) /\
  In EvCtxDone (trace (state_after continuous_no_server cancelled_at_gate)) /\
  main (state_after continuous_no_server cancelled_at_gate)
    = MReturned None /\
  poller (state_after continuous_no_server cancelled_at_gate) = PNone.
Proof.
  assert (Hrun : Run continuous_no_server cancelled_at_gate
                 = Some (state_after continuous_no_server cancelled_at_gate))
    by (vm_compute; reflexivity).
  assert (Hin : In EvCtxDone
                  (trace (state_after continuous_no_server cancelled_at_gate)))
    by (vm_compute; in_list).
  split; [exact Hrun|]. split; [exact Hin|].
  pose proof (gate_cancelled_returns_nil continuous_no_server
                cancelled_at_gate _ Hrun Hin) as (Hm & Hp & _).
  split; [exact Hm | exact Hp].
Defined.


(** ** Errors of the poll and of the tasks *)

Section PollErrors.

Variable config : Config.

(** What [Run] returns is nil or the error [server.ListenAndServe]
    returned; it is nil when the status server is disabled. *)
Lemma Run_result_from_server ls s :
  Run config ls = Some s ->
  (forall e, main s = MReturned (Some e) ->
             In (EvTaskReturn Server (Some e)) (trace s)) /\
  (Server_Port config = "false" ->
   forall r, main s = MReturned r -> r = None).
Proof.
  intros Hrun.
  pose proof (ctl_inv_reach config ls s Hrun) as Hc.
  pose proof (server_inv_reach config ls s Hrun) as (_ & _ & Hs).
  unfold ctl_inv in Hc.
  destruct Hc as (_ & _ & Hgo & Hen & _ & Hc).
  split.
  - intros e Hm. rewrite Hm in Hc.
    destruct Hc as (_ & [(_ & Hn & _) | (_ & _ & _ & _ & Hr)]);
      [discriminate|].
    symmetry in Hr. apply classify_result in Hr.
    destruct (server s); rewrite Hr in Hs.
    + destruct Hs as [Hn _]; discriminate.
    + destruct Hs as [Hn _]; discriminate.
    + destruct Hs as [Hin _]. exact Hin.
  - intros Hport r Hm. apply server_enabled_false in Hport.
    rewrite Hm in Hc.
    destruct Hc as (_ & [(_ & Hn & _) | (_ & _ & _ & _ & Hr)]);
      [exact Hn|].
    assert (Hsv : server s = SNone).
    { destruct (server s) eqn:Hsv; [reflexivity| |];
        exfalso; assert (Hx : server_enabled config = true)
          by (apply Hen, Hgo; congruence); congruence. }
    rewrite Hsv in Hs. destruct Hs as [Hn _].
    rewrite Hn in Hr. exact Hr.
Qed.

(** C1, as the code has it.  In continuous mode the result of
    [poller.Poll] is dropped on line 165: the poller closure returns nil to
    the group, so an error [Run] returns is the one
    [server.ListenAndServe] returned, and [Run] returns nil when the
    status server is disabled.  Nothing in this mode calls the cancel
    function before [Run] returns: until then the signal is fired only if
    [parentCtx] was cancelled. *)
Theorem continuous_poll_error_dropped ls s :
  1 <= Runner_Capacity config ->
  Run config ls = Some s ->
  (forall r, In (EvTaskReturn Poller r) (trace s) -> r = None) /\
  (forall e, main s = MReturned (Some e) ->
             In (EvTaskReturn Server (Some e)) (trace s)) /\
  (Server_Port config = "false" ->
   forall r, main s = MReturned r -> r = None) /\
  (returned (main s) = false -> ctx_done s = true ->
   In EvParentCancel (trace s)).
Proof.
  intros Hcap Hrun. apply continuous_capacity in Hcap.
  pose proof (Run_result_from_server ls s Hrun) as [Hr1 Hr2].
  pose proof (cancel_inv_reach config ls s Hrun) as Hc.
  unfold cancel_inv in Hc.
  destruct Hc as (_ & Hpd & Hcn & Hev & _).
  split; [exact (poller_returns_nil_inv config ls s Hrun)|].
  split; [exact Hr1|]. split; [exact Hr2|].
  intros Hret Hd. unfold ctx_done in Hd.
  apply orb_true_iff in Hd. destruct Hd as [Hd|Hd]; [auto|].
  destruct (Hcn Hd) as [Hx|Hx]; [|congruence].
  apply Hev in Hx. congruence.
Qed.

(** C5, as the code has it.  In single-stage mode, after a poll that
    returned an error the scheduled-exit flag stays false, so the join's
    error is returned as it is: [Run] returns nil when the status server
    is disabled, and otherwise returns what [server.ListenAndServe]
    returned, the cancellation condition included. *)
Theorem single_stage_poll_error ls s e r :
  Runner_Capacity config < 1 ->
  Run config ls = Some s ->
  In (EvPoll 0 (Some e)) (trace s) ->
  main s = MReturned r ->
  isScheduledExit s = false /\
  r = g_err (g s) /\
  (Server_Port config = "false" -> r = None) /\
  (Server_Port config <> "false" ->
   In (EvTaskReturn Server r) (trace s)).
Proof.
  intros Hcap Hrun Hin Hm. apply single_stage_capacity in Hcap.
  pose proof (script_inv_reach config Hcap ls s Hrun) as [_ Hs].
  pose proof (ctl_inv_reach config ls s Hrun) as Hc.
  pose proof (server_inv_reach config ls s Hrun) as (_ & _ & Hsv).
  pose proof (Run_result_from_server ls s Hrun) as [_ Hr2].
  assert (Hin' : In (EvPoll 0 (Some e)) (poller_trace s))
    by (apply filter_In; split; [exact Hin|reflexivity]).
  unfold ctl_inv in Hc; rewrite Hm in Hc.
  destruct Hc as (_ & _ & _ & _ & _ & _ & Hc).
  destruct Hc as [(_ & _ & Hp & _) | (_ & Hp & Hen & _ & Hr)].
  { rewrite Hp in Hs. destruct Hs as [Ht _].
    rewrite Ht in Hin'. destruct Hin'. }
  rewrite Hp in Hs. destruct Hs as (e' & Ht & Hf).
  rewrite Ht in Hin'.
  assert (He : e' = Some e).
  { destruct e'; simpl in Hin'; intuition congruence. }
  subst e'. simpl in Hf.
  rewrite Hf, classify_flag_false in Hr.
  split; [exact Hf|]. split; [exact Hr|].
  split; [intros Hport; exact (Hr2 Hport r Hm)|].
  intros Hport. apply server_enabled_true in Hport.
  rewrite (Hen Hport) in Hsv. destruct Hsv as [Hx _]. now rewrite Hr.
Qed.

(** C7, as the code has it.  The group of line 99 is the zero group and
    stays so: it holds no cancel function.  A closure that returns to it
    therefore leaves the signal as it was; its error is kept when it is
    the first non-nil one and dropped when the group already holds one.
    The cancel function is called by line 161 and by [Run]'s return, and
    by nothing else. *)
Theorem join_keeps_first_error ls s :
  Run config ls = Some s ->
  g_cancel (g s) = false /\
  (forall t r,
     cancelled (task_return t r s) = cancelled s /\
     parentDone (task_return t r s) = parentDone s) /\
  (g_errOnce (g s) = false ->
   forall t e, g_err (g (task_return t (Some e) s)) = Some e) /\
  (g_errOnce (g s) = true ->
   g_err (g s) <> None /\
   forall t r, g_err (g (task_return t r s)) = g_err (g s)) /\
  (cancelled s = true ->
   In EvCancel (trace s) \/ returned (main s) = true).
Proof.
  intros Hrun.
  pose proof (cancel_inv_reach config ls s Hrun) as Hc.
  pose proof (server_inv_reach config ls s Hrun) as (_ & Ho & _).
  unfold cancel_inv in Hc. destruct Hc as (Hg & _ & Hcn & _).
  split; [exact Hg|].
  split; [|split; [|split; [|exact Hcn]]].
  - intros t r. unfold task_return, Group_done.
    destruct r; [destruct (g_errOnce (g s))|]; rewrite ?Hg; simpl; auto.
  - intros Hf t e. unfold task_return, Group_done.
    rewrite Hf, Hg; reflexivity.
  - intros Ht. split; [auto|].
    intros t r. unfold task_return, Group_done.
    destruct r; rewrite ?Ht; reflexivity.
Qed.

End PollErrors.

(** In continuous mode a failed poll is not what [Run] returns and does
    not fire the signal: without status server [Run] returns nil, the
    signal being still not fired when [g.Wait] returns; with the status
    server on, that server is still serving, the signal not fired, after
    the poller closure has returned. *)
Lemma continuous_poll_error_not_returned :
  Run continuous_no_server (poll_failure_run ++ join)
    = Some (state_after continuous_no_server (poll_failure_run ++ join)) /\
  In (EvPoll 2 (Some (Failure "poll")))
     (trace (state_after continuous_no_server (poll_failure_run ++ join))) /\
  main (state_after continuous_no_server (poll_failure_run ++ join))
    = MReturned None /\
  main (state_after continuous_no_server (poll_failure_run ++ [Sched Main]))
    = MJoined None /\
  ctx_done (state_after continuous_no_server
              (poll_failure_run ++ [Sched Main])) = false /\
  Run continuous_with_server poll_failure_run
    = Some (state_after continuous_with_server poll_failure_run) /\
  poller (state_after continuous_with_server poll_failure_run) = PDone /\
  server (state_after continuous_with_server poll_failure_run) = SServe /\
  ctx_done (state_after continuous_with_server poll_failure_run) = false.
Proof.
  conjuncts; try (vm_compute; reflexivity).
  vm_compute. in_list.
Qed.

Lemma continuous_poll_error_dropped_witness :
  1 <= Runner_Capacity continuous_no_server /\
  Run continuous_no_server (poll_failure_run ++ join)
    = Some (state_after continuous_no_server (poll_failure_run ++ join)) /\
  forall r,
    main (state_after continuous_no_server (poll_failure_run ++ join))
      = MReturned r -> r = None.
Proof.
  assert (Hcap : 1 <= Runner_Capacity continuous_no_server)
    by (vm_compute; discriminate).
  assert (Hrun : Run continuous_no_server (poll_failure_run ++ join)
                 = Some (state_after continuous_no_server
                           (poll_failure_run ++ join)))
    by (vm_compute; reflexivity).
  split; [exact Hcap|]. split; [exact Hrun|].
  exact (proj1 (proj2 (proj2 (continuous_poll_error_dropped
                                continuous_no_server _ _ Hcap Hrun)))
           eq_refl).
Defined.

(** With the status server enabled, a single-stage run whose poll fails
    makes [Run] return [context.Canceled]. *)
Lemma single_stage_poll_error_returned :
  Run single_stage_with_server failed_single_stage_run
    = Some (state_after single_stage_with_server failed_single_stage_run) /\
  In (EvPoll 0 (Some (Failure "poll")))
     (trace (state_after single_stage_with_server failed_single_stage_run)) /\
  main (state_after single_stage_with_server failed_single_stage_run)
    = MReturned (Some Canceled).
Proof.
  conjuncts; try (vm_compute; reflexivity).
  vm_compute. in_list.
Qed.

Lemma single_stage_poll_error_witness :
  Runner_Capacity single_stage_no_server < 1 /\
  Run single_stage_no_server (failed_poll_run ++ join)
    = Some (state_after single_stage_no_server (failed_poll_run ++ join)) /\
  In (EvPoll 0 (Some (Failure "poll")))
     (trace (state_after single_stage_no_server (failed_poll_run ++ join))) /\
  main (state_after single_stage_no_server (failed_poll_run ++ join))
    = MReturned None /\
  isScheduledExit (state_after single_stage_no_server
                     (failed_poll_run ++ join)) = false.
Proof.
  assert (Hcap : Runner_Capacity single_stage_no_server < 1)
    by (vm_compute; reflexivity).
  assert (Hrun : Run single_stage_no_server (failed_poll_run ++ join)
                 = Some (state_after single_stage_no_server
                           (failed_poll_run ++ join)))
    by (vm_compute; reflexivity).
  assert (Hin : In (EvPoll 0 (Some (Failure "poll")))
                  (trace (state_after single_stage_no_server
                            (failed_poll_run ++ join))))
    by (vm_compute; in_list).
  assert (Hm : main (state_after single_stage_no_server
                       (failed_poll_run ++ join)) = MReturned None)
    by (vm_compute; reflexivity).
  split; [exact Hcap|]. split; [exact Hrun|]. split; [exact Hin|].
  split; [exact Hm|].
  exact (proj1 (single_stage_poll_error single_stage_no_server _ _ _ _
                  Hcap Hrun Hin Hm)).
Defined.

(** The server closure has returned an error, the group holds it, the
    poller is still inside [poller.Poll], and the signal has not fired. *)
Lemma task_error_does_not_cancel :
  Run continuous_with_server server_fails_first
    = Some (state_after continuous_with_server server_fails_first) /\
  In (EvTaskReturn Server (Some (Failure "listen")))
     (trace (state_after continuous_with_server server_fails_first)) /\
  g_err (g (state_after continuous_with_server server_fails_first))
    = Some (Failure "listen") /\
  poller (state_after continuous_with_server server_fails_first)
    = PPollCont /\
  ctx_done (state_after continuous_with_server server_fails_first) = false.
Proof.
  conjuncts; try (vm_compute; reflexivity).
  vm_compute. in_list.
Qed.

Lemma join_keeps_first_error_witness :
  Run continuous_with_server server_fails_first
    = Some (state_after continuous_with_server server_fails_first) /\
  g_errOnce (g (state_after continuous_with_server server_fails_first))
    = true /\
  forall t r,
    g_err (g (task_return t r
                (state_after continuous_with_server server_fails_first)))
    = Some (Failure "listen").
Proof.
  assert (Hrun : Run continuous_with_server server_fails_first
                 = Some (state_after continuous_with_server
                           server_fails_first))
    by (vm_compute; reflexivity).
  assert (Ho : g_errOnce (g (state_after continuous_with_server
                               server_fails_first)) = true)
    by (vm_compute; reflexivity).
  split; [exact Hrun|]. split; [exact Ho|].
  intros t r.
  rewrite (proj2 (proj1 (proj2 (proj2 (proj2
             (join_keeps_first_error continuous_with_server _ _ Hrun)))) Ho)
             t r).
  vm_compute; reflexivity.
Defined.

(** * Further properties of [Run] *)

Section Signal.

Variable config : Config.

Lemma step_keeps_signal l s s' :
  step config l s = Some s' ->
  (ctx_done s = true -> ctx_done s' = true) /\
  (isScheduledExit s = true -> isScheduledExit s' = true) /\
  exists evs, trace s' = (trace s ++ evs)%list.
Proof.
  intros H. unfold ctx_done.
  step_cases H; rewrite <- ?app_assoc;
    (split; [|split;
       [|first [ exists []; now rewrite app_nil_r
               | eexists; reflexivity ]]]);
    rewrite ?orb_true_iff; try tauto; auto.
Qed.

(** X1. Once fired, the signal of [ctx] stays fired, and once written, the
    scheduled-exit flag stays written, whatever the threads and the
    collaborators do next; the trace only grows. *)
Theorem signal_stays_fired ls s s' :
  exec config ls s = Some s' ->
  (ctx_done s = true -> ctx_done s' = true) /\
  (isScheduledExit s = true -> isScheduledExit s' = true) /\
  exists evs, trace s' = (trace s ++ evs)%list.
Proof.
  revert s; induction ls as [|l ls IH]; intros s H; simpl in H.
  - inversion H; subst. repeat split; auto. exists []. now rewrite app_nil_r.
  - destruct (step config l s) as [s1|] eqn:E; [|discriminate].
    destruct (step_keeps_signal l s s1 E) as (H1 & H2 & evs1 & H3).
    destruct (IH s1 H) as (H4 & H5 & evs2 & H6).
    repeat split; auto.
    exists (evs1 ++ evs2)%list. now rewrite H6, H3, app_assoc.
Qed.

Lemma return_inv_reach ls s : Run config ls = Some s -> return_inv s.
Proof.
  apply Run_invariant.
  - unfold return_inv; simpl. auto.
  - intros l s0 s' IH H. unfold return_inv in *.
    step_cases H; split_pcs; open_inv; simpl in *; try close_inv.
Qed.

(** X2. Whichever way [Run] returns, through line 127, 173 or 180, the
    deferred [cancelBySingleStageMode()] of line 35 has run: the signal of
    [ctx] is fired in every state in which [Run] has returned, so a
    status server still serving then is told to stop.  [Run] returns once:
    the return recorded in the trace is the value it returned. *)
Theorem Run_return_fires_signal ls s r :
  Run config ls = Some s ->
  main s = MReturned r ->
  ctx_done s = true /\
  In (EvReturn r) (trace s) /\
  (forall r', In (EvReturn r') (trace s) -> r' = r).
Proof.
  intros Hrun Hm.
  pose proof (return_inv_reach ls s Hrun) as Hr.
  unfold return_inv in Hr; rewrite Hm in Hr.
  destruct Hr as (Hc & Hin & Hu).
  unfold ctx_done; rewrite Hc, orb_true_r. auto.
Qed.

End Signal.

Section Results.

Variable config : Config.

(** X3. With the status server disabled (port [false]) it is never started,
    the group never holds an error, and [Run] returns nil in both modes and
    on every path.  In general an error that [Run] returns is one that
    [server.ListenAndServe] returned, with the server enabled. *)
Theorem Run_fails_only_with_server ls s :
  Run config ls = Some s ->
  (Server_Port config = "false" ->
   server s = SNone /\
   (forall r, ~ In (EvTaskReturn Server r) (trace s)) /\
   g_err (g s) = None /\
   (forall r, main s = MReturned r -> r = None)) /\
  (forall e, main s = MReturned (Some e) ->
             Server_Port config <> "false" /\
             In (EvTaskReturn Server (Some e)) (trace s)).
Proof.
  intros Hrun.
  pose proof (Run_result_from_server config ls s Hrun) as [Hr1 Hr2].
  pose proof (ctl_inv_reach config ls s Hrun) as Hc.
  pose proof (server_inv_reach config ls s Hrun) as (_ & _ & Hs).
  unfold ctl_inv in Hc. destruct Hc as (_ & _ & Hgo & Hen & _).
  assert (Hoff : Server_Port config = "false" -> server s = SNone).
  { intros Hport. apply server_enabled_false in Hport.
    destruct (server s) eqn:Hsv; [reflexivity| |];
      exfalso; assert (Hx : server_enabled config = true)
        by (apply Hen, Hgo; congruence); congruence. }
  split.
  - intros Hport. pose proof (Hoff Hport) as Hsv.
    rewrite Hsv in Hs. destruct Hs as (Hn & _ & Hno).
    repeat split; auto.
  - intros e Hm. split; [|exact (Hr1 e Hm)].
    intros Hport. pose proof (Hr2 Hport _ Hm). discriminate.
Qed.

(** X4. In single-stage mode, once the poll has returned nil the
    scheduled-exit flag is set, and a [Run] that returns after that
    returns nil when the join's error is nil or [context.Canceled], and
    the join's error itself when it is any other error: only a genuine
    failure of the status server makes a completed single stage fail. *)
Theorem single_stage_success ls s r :
  Runner_Capacity config < 1 ->
  Run config ls = Some s ->
  In (EvPoll 0 None) (trace s) ->
  main s = MReturned r ->
  isScheduledExit s = true /\
  (g_err (g s) = None \/ g_err (g s) = Some Canceled -> r = None) /\
  (forall msg, g_err (g s) = Some (Failure msg) -> r = Some (Failure msg)) /\
  (Server_Port config <> "false" ->
   In (EvTaskReturn Server (g_err (g s))) (trace s)).
Proof.
  intros Hcap Hrun Hin Hm. apply single_stage_capacity in Hcap.
  pose proof (script_inv_reach config Hcap ls s Hrun) as [_ Hs].
  pose proof (ctl_inv_reach config ls s Hrun) as Hc.
  pose proof (server_inv_reach config ls s Hrun) as (_ & _ & Hsv).
  assert (Hin' : In (EvPoll 0 None) (poller_trace s))
    by (apply filter_In; split; [exact Hin|reflexivity]).
  unfold ctl_inv in Hc; rewrite Hm in Hc.
  destruct Hc as (_ & _ & _ & _ & _ & _ & Hc).
  destruct Hc as [(_ & _ & Hp & _) | (_ & Hp & Hen & _ & Hr)].
  { rewrite Hp in Hs. destruct Hs as [Ht _].
    rewrite Ht in Hin'. destruct Hin'. }
  rewrite Hp in Hs. destruct Hs as (e' & Ht & Hf).
  rewrite Ht in Hin'.
  assert (He : e' = None).
  { destruct e'; simpl in Hin'; [|reflexivity]. intuition congruence. }
  subst e'. simpl in Hf. rewrite Hf in Hr.
  split; [exact Hf|]. split; [|split].
  - intros [Hg|Hg]; rewrite Hg in Hr; exact Hr.
  - intros msg Hg. rewrite Hg in Hr. exact Hr.
  - intros Hport. apply server_enabled_true in Hport.
    rewrite (Hen Hport) in Hsv. destruct Hsv as [Hx _]. exact Hx.
Qed.

(** X5. In continuous mode the scheduled-exit flag is never written and line
    161 is never reached, so nothing is suppressed on line 171: a [Run]
    that returns through the join returns the join's error as it is,
    [context.Canceled] included. *)
Theorem continuous_returns_join_error ls s :
  1 <= Runner_Capacity config ->
  Run config ls = Some s ->
  isScheduledExit s = false /\
  ~ In EvSetScheduledExit (trace s) /\
  ~ In EvCancel (trace s) /\
  (forall r, main s = MReturned r ->
             (In EvCtxDone (trace s) /\ r = None) \/
             (~ In EvCtxDone (trace s) /\ r = g_err (g s))).
Proof.
  intros Hcap Hrun. apply continuous_capacity in Hcap.
  pose proof (cancel_inv_reach config ls s Hrun) as Hc.
  pose proof (ctl_inv_reach config ls s Hrun) as Hctl.
  unfold cancel_inv in Hc.
  destruct Hc as (_ & _ & _ & Hev & Hset & Hfl & _).
  assert (Hf : isScheduledExit s = false).
  { destruct (isScheduledExit s); [|reflexivity].
    pose proof (Hset (Hfl eq_refl)). congruence. }
  split; [exact Hf|].
  split; [intros Hx; apply Hset in Hx; congruence|].
  split; [intros Hx; apply Hev in Hx; congruence|].
  intros r Hm. unfold ctl_inv in Hctl; rewrite Hm in Hctl.
  destruct Hctl as (_ & _ & _ & _ & _ & _ & Hctl).
  destruct Hctl as [(Hin & Hr & _) | (Hn & _ & _ & _ & Hr)].
  - left; auto.
  - right. rewrite Hf, classify_flag_false in Hr. auto.
Qed.

(** X7. A ping that succeeds ends the loop: it is the last call the loop
    makes, so there is at most one, no sleep and no further ping follow
    it, and every ping before it failed and was followed by its sleep. *)
Theorem successful_ping_is_last ls s :
  Run config ls = Some s ->
  In (EvPing None) (trace s) ->
  (exists es,
     gate_trace s = (flat_map retry_cycle es ++ [EvPing None])%list) /\
  main s <> MStart /\ main s <> MPing /\ main s <> MSleep.
Proof.
  intros Hrun Hin.
  destruct (gate_inv_reach config ls s Hrun) as (es & tail & Hg & Ht).
  assert (Hin' : In (EvPing None) (gate_trace s))
    by (apply filter_In; split; [exact Hin|reflexivity]).
  rewrite Hg in Hin'. apply in_app_iff in Hin'.
  destruct Hin' as [Hin'|Hin'].
  { apply in_flat_map in Hin'.
    destruct Hin' as (e & _ & [He|[He|[]]]); discriminate. }
  assert (Htail : tail = [EvPing None] /\
                  main s <> MStart /\ main s <> MPing /\ main s <> MSleep).
  { destruct (main s); simpl in Ht;
      repeat match goal with
             | Hx : exists _, _ |- _ => destruct Hx
             end; subst tail; simpl in Hin';
      try contradiction;
      destruct Hin' as [Hx|Hx]; try contradiction;
      inversion Hx; subst;
      repeat split; congruence. }
  destruct Htail as (-> & Hrest).
  split; [exists es; exact Hg | exact Hrest].
Qed.

(** X8. The join is a barrier and nothing more: while the main goroutine is
    inside [g.Wait], the call returns exactly when no closure is running,
    that is when the poller closure has returned and the status server is
    not serving; it then returns the error the group holds. *)
Theorem Wait_returns_when_tasks_done ls s :
  Run config ls = Some s ->
  main s = MWait ->
  ((exists s', step config (Sched Main) s = Some s') <->
   (server_running (server s) = false /\ poller s = PDone)) /\
  (forall s', step config (Sched Main) s = Some s' ->
              main s' = MJoined (g_err (g s)) /\
              ctx_done s' = ctx_done s).
Proof.
  intros Hrun Hm.
  pose proof (ctl_inv_reach config ls s Hrun) as Hc.
  unfold ctl_inv in Hc; rewrite Hm in Hc.
  destruct Hc as (Hg & Hw & _ & _ & _ & _ & Hp & _).
  unfold step, step_main; rewrite Hm, Hg.
  split; [split|].
  - intros [s' Hs]. destruct (g_wg (g s)) eqn:Hn; [|discriminate].
    destruct (server s), (poller s); simpl in *;
      try discriminate; try congruence; auto.
  - intros [Hs Hd]. rewrite Hs, Hd in Hw; simpl in Hw.
    rewrite Hw. eexists; reflexivity.
  - intros s' Hs. destruct (g_wg (g s)); [|discriminate].
    inversion Hs; subst; clear Hs. split; reflexivity.
Qed.

End Results.

Section Continuous.

Variable config : Config.
Hypothesis continuous : isSingleStageMode config = false.

Lemma continuous_inv_reach ls s :
  Run config ls = Some s -> continuous_inv config s.
Proof.
  apply Run_invariant.
  - unfold continuous_inv; simpl; auto.
  - intros l s0 s' [Hb IH] H. unfold continuous_inv, poller_trace in *.
    step_cases H;
      repeat match goal with pl : PollerPc |- _ => destruct pl end;
      try congruence; try contradiction;
      try (specialize (Hb eq_refl); discriminate);
      (split; [intuition congruence|]);
      rewrite ?filter_app; simpl in *; rewrite ?app_nil_r;
      try assumption;
      repeat match goal with
             | Hx : exists _, _ |- _ => destruct Hx as [? ?]
             end;
      repeat match goal with
             | Hx : filter _ _ = _ |- _ => rewrite Hx
             end;
      simpl; eauto; try (eexists; reflexivity).
Qed.

End Continuous.

Section PollerInContinuousMode.

Variable config : Config.

(** X6. In continuous mode the poller closure calls [poller.Poll] once, with
    the configured capacity, and then returns nil to the group, whatever
    the poll returned; it logs no failure, does not write the flag and
    does not call the cancel function.  At every moment it has done a
    prefix of that, and all of it once it has returned. *)
Theorem continuous_poller ls s :
  1 <= Runner_Capacity config ->
  Run config ls = Some s ->
  exists r,
    (exists rest,
       (poller_trace s ++ rest)%list = continuous_script config r) /\
    (poller s = PDone -> poller_trace s = continuous_script config r).
Proof.
  intros Hcap Hrun. apply continuous_capacity in Hcap.
  pose proof (continuous_inv_reach config Hcap ls s Hrun) as [_ Hs].
  destruct (poller s); try contradiction;
    try (exists None; rewrite Hs; split;
         [eexists; reflexivity | discriminate]).
  - destruct Hs as [r Hs]. exists r; rewrite Hs; split;
      [eexists; reflexivity | discriminate].
  - destruct Hs as [r Hs]. exists r; rewrite Hs; split;
      [exists []; reflexivity | reflexivity].
Qed.

End PollerInContinuousMode.

Section Spawning.

Variable config : Config.

Lemma spawn_inv_reach ls s : Run config ls = Some s -> spawn_inv s.
Proof.
  apply Run_invariant.
  - unfold spawn_inv, Go_count; simpl. intuition congruence.
  - intros l s0 s' IH H. unfold spawn_inv, Go_count in *.
    step_cases H;
      repeat rewrite filter_app in *; repeat rewrite length_app in *;
      simpl in *;
      destruct IH as (H1 & H2 & H3 & H4 & H5);
      try (specialize (H1 eq_refl)); try (specialize (H2 eq_refl));
      subst; simpl in *;
      repeat split; intros; try discriminate; try lia;
      try (destruct sv; simpl in *; lia);
      try (destruct pl; simpl in *; lia); auto;
      try solve [intuition discriminate].
Qed.

(** X9. The group is given a fixed set of closures: [g.Go] is called at most
    once for the status server and at most once for the poller, each
    exactly when that thread has come to exist, and never for anything
    else; the group's counter is therefore at most the number of [g.Go]
    calls and never exceeds 2. *)
Theorem each_task_started_once ls s :
  Run config ls = Some s ->
  Go_count Main s = 0%nat /\
  (Go_count Server s <= 1)%nat /\ (Go_count Poller s <= 1)%nat /\
  (Go_count Server s = 1%nat <-> server s <> SNone) /\
  (Go_count Poller s = 1%nat <-> poller s <> PNone) /\
  (g_wg (g s) <= Go_count Server s + Go_count Poller s <= 2)%nat.
Proof.
  intros Hrun.
  pose proof (spawn_inv_reach ls s Hrun) as (_ & _ & H0 & H1 & H2).
  pose proof (ctl_inv_reach config ls s Hrun) as (_ & Hw & _).
  rewrite H0, H1, H2, Hw.
  destruct (server s), (poller s); simpl;
    repeat split; intros; try congruence; try lia.
Qed.

End Spawning.

Section ShutdownLines.

Variable config : Config.






End ShutdownLines.

Section Progress.

Variable config : Config.

Lemma exec_snoc ls l s s1 s2 :
  exec config ls s = Some s1 -> step config l s1 = Some s2 ->
  exec config (ls ++ [l]) s = Some s2.
Proof.
  intros H1 H2. rewrite (exec_app config _ _ _ _ H1). simpl. now rewrite H2.
Qed.

(** Steps that lower a rank, as long as it is not 0, lead to rank 0. *)
Lemma descend (rank : State -> nat) (P : State -> Prop) :
  (forall s, P s -> rank s <> 0%nat ->
             exists l s', step config l s = Some s' /\ P s' /\
                          (rank s' < rank s)%nat) ->
  forall n s, (rank s <= n)%nat -> P s ->
              exists ls' s', exec config ls' s = Some s' /\ P s' /\
                             rank s' = 0%nat.
Proof.
  intros Hstep n; induction n as [|n IH]; intros s Hn HP.
  - exists [], s. simpl. repeat split; auto. lia.
  - destruct (Nat.eq_dec (rank s) 0) as [Hz|Hz].
    + exists [], s. simpl. auto.
    + destruct (Hstep s HP Hz) as (l & s1 & Hs & HP1 & Hlt).
      destruct (IH s1 ltac:(lia) HP1) as (ls' & s' & Hex & HP' & Hr).
      exists (l :: ls'), s'. simpl. rewrite Hs. auto.
Qed.

Lemma main_descends s :
  main_rank (main s) <> 0%nat ->
  exists l s', step config l s = Some s' /\ True /\
               (main_rank (main s') < main_rank (main s))%nat.
Proof.
  intros Hr. destruct s as [pd cn fl gr m sv pl tr]; simpl in *.
  destruct m as [| |[e|]|[e|]|[e|]| | | | |]; simpl in Hr;
    try congruence.
  2: { exists (Ret Main None). eexists; split; [reflexivity|].
       simpl; split; [exact I|lia]. }
  all: exists (Sched Main); cbn -[String.eqb]; unfold ctx_done;
    cbn -[String.eqb].
  all: repeat match goal with
              | |- context [if ?b then _ else _] => destruct b
              end.
  all: eexists; split; [reflexivity|]; simpl; split; [exact I|lia].
Qed.

Lemma poller_descends s :
  main s = MWait /\ poller s <> PNone ->
  poller_rank (poller s) <> 0%nat ->
  exists l s', step config l s = Some s' /\
               (main s' = MWait /\ poller s' <> PNone) /\
               (poller_rank (poller s') < poller_rank (poller s))%nat.
Proof.
  intros [Hm Hp] Hr.
  destruct s as [pd cn fl [gc gw go ge] m sv pl tr]; simpl in *.
  subst m.
  destruct pl as [| | |[e|]| | | |]; simpl in Hr; try congruence.
  2, 6: exists (Ret Poller None); eexists; (split; [reflexivity|]); simpl;
    (split; [split; [reflexivity|discriminate]|lia]).
  all: exists (Sched Poller); cbn.
  all: repeat match goal with
              | |- context [if ?b then _ else _] => destruct b
              end.
  all: eexists; (split; [reflexivity|]); simpl;
    (split; [split; [reflexivity|discriminate]|lia]).
Qed.

Lemma joined_returns s err :
  main s = MJoined err ->
  exists s', step config (Sched Main) s = Some s' /\
             returned (main s') = true.
Proof.
  intros Hm. unfold step, step_main; rewrite Hm.
  destruct (classify err (isScheduledExit s)) as [r logs].
  eexists; split; reflexivity.
Qed.

Lemma waiting_can_return ls s :
  Run config ls = Some s -> main s = MWait ->
  exists ls' s', exec config ls' s = Some s' /\ returned (main s') = true.
Proof.
  intros Hrun Hm.
  pose proof (ctl_inv_reach config ls s Hrun) as Hc.
  assert (Hp : poller s <> PNone)
    by (unfold ctl_inv in Hc; rewrite Hm in Hc; tauto).
  destruct (descend (fun s => poller_rank (poller s))
              (fun s => main s = MWait /\ poller s <> PNone)
              poller_descends _ s (le_n _) (conj Hm Hp))
    as (ls1 & s1 & Hex1 & [Hm1 Hp1] & Hr1).
  assert (Hd1 : poller s1 = PDone)
    by (destruct (poller s1); simpl in Hr1; congruence).
  assert (Hsrv : exists ls2 s2,
             exec config ls2 s1 = Some s2 /\ main s2 = MWait /\
             poller s2 = PDone /\ server_running (server s2) = false).
  { destruct (server s1) eqn:Hsv.
    - exists [], s1. simpl. rewrite Hsv. auto.
    - exists [Ret Server None]. simpl. rewrite Hsv.
      eexists; split; [reflexivity|].
      unfold task_return, Group_done; simpl. auto.
    - exists [], s1. simpl. rewrite Hsv. auto. }
  destruct Hsrv as (ls2 & s2 & Hex2 & Hm2 & Hd2 & Hs2).
  assert (Hrun2 : Run config (ls ++ ls1 ++ ls2) = Some s2).
  { unfold Run. rewrite (exec_app config _ _ _ _ Hrun).
    rewrite (exec_app config _ _ _ _ Hex1). exact Hex2. }
  pose proof (ctl_inv_reach config _ s2 Hrun2) as Hc2.
  unfold ctl_inv in Hc2. destruct Hc2 as (_ & Hw & _).
  rewrite Hs2, Hd2 in Hw; simpl in Hw.
  assert (Hst : exists s3, step config (Sched Main) s2 = Some s3 /\
                           exists err, main s3 = MJoined err).
  { unfold step, step_main. rewrite Hm2, Hw.
    eexists; split; [reflexivity|]. simpl. eauto. }
  destruct Hst as (s3 & Hst3 & err & Hm3).
  destruct (joined_returns s3 err Hm3) as (s4 & Hst4 & Hret).
  exists (ls1 ++ ls2 ++ [Sched Main; Sched Main])%list, s4.
  split; [|exact Hret].
  rewrite (exec_app config _ _ _ _ Hex1).
  rewrite (exec_app config _ _ _ _ Hex2).
  cbn [exec]. rewrite Hst3, Hst4. reflexivity.
Qed.

(** X11. [Run] never gets stuck by itself.  From every state an execution can
    reach, whatever the interleaving and whatever the collaborators have
    returned so far, there is a continuation after which [Run] has
    returned: the threads can always take their next step, [g.Wait]
    returns once both closures have, and nothing waits for a closure that
    was never started. *)
Theorem Run_can_always_return ls s :
  Run config ls = Some s ->
  exists ls' s', exec config ls' s = Some s' /\ returned (main s') = true.
Proof.
  intros Hrun.
  destruct (descend (fun s => main_rank (main s)) (fun _ => True)
              (fun s _ => main_descends s) _ s (le_n _) I)
    as (ls1 & s1 & Hex1 & _ & Hr1).
  assert (Hrun1 : Run config (ls ++ ls1) = Some s1)
    by (unfold Run; rewrite (exec_app config _ _ _ _ Hrun); exact Hex1).
  destruct (main s1) eqn:Hm1; simpl in Hr1; try discriminate;
    try (destruct err; discriminate).
  - destruct (waiting_can_return _ s1 Hrun1 Hm1) as (ls2 & s2 & Hex2 & Hret).
    exists (ls1 ++ ls2)%list, s2. split; [|exact Hret].
    now rewrite (exec_app config _ _ _ _ Hex1).
  - destruct (joined_returns s1 err Hm1) as (s2 & Hst & Hret).
    exists (ls1 ++ [Sched Main])%list, s2. split; [|exact Hret].
    exact (exec_snoc _ _ _ _ _ Hex1 Hst).
  - exists ls1, s1. split; [exact Hex1|]. now rewrite Hm1.
Qed.

End Progress.

(** * setupLogger *)

Section SetupLoggerFacts.

Variable Hook : Type.
Variable NewHook : LogFile -> Level -> Hook + error.

(** X14. [setupLogger] fails exactly when a log file is configured and the
    hook for it cannot be made, and it then returns the error of
    [NewHook].  The hook is added, after the hooks already there, exactly
    when a file is configured and the hook could be made; with no file
    configured [NewHook] has no influence.  In every case, the failing one
    included, [logger.Default] is set and the level is the one asked for,
    trace taking precedence over debug and the level being left alone when
    neither is asked for. *)
Theorem setupLogger_outcome config st :
  log_Default (snd (setupLogger Hook NewHook config st)) = true /\
  log_level (snd (setupLogger Hook NewHook config st))
    = level_after config (log_level st) /\
  match NewHook (Logger_LogFile config) TraceLevel with
  | inl hook =>
      fst (setupLogger Hook NewHook config st) = None /\
      log_hooks (snd (setupLogger Hook NewHook config st))
        = (if String.eqb (Logger_File config) EmptyString
           then log_hooks st
           else log_hooks st ++ [hook])%list
  | inr err =>
      fst (setupLogger Hook NewHook config st)
        = (if String.eqb (Logger_File config) EmptyString
           then None else Some err) /\
      log_hooks (snd (setupLogger Hook NewHook config st)) = log_hooks st
  end.
Proof.
  unfold setupLogger, level_after.
  destruct (Config_Debug config), (Config_Trace config),
    (String.eqb (Logger_File config) EmptyString),
    (NewHook (Logger_LogFile config) TraceLevel); simpl; auto.
Qed.

(** X15. Calling [setupLogger] again with the same configuration returns the
    same error and leaves the level where the first call put it, but it is
    not idempotent on the hooks: when a file is configured and its hook
    can be made, the hook is then registered twice. *)
Theorem setupLogger_twice config st :
  fst (setupLogger Hook NewHook config
         (snd (setupLogger Hook NewHook config st)))
    = fst (setupLogger Hook NewHook config st) /\
  log_level (snd (setupLogger Hook NewHook config
                    (snd (setupLogger Hook NewHook config st))))
    = log_level (snd (setupLogger Hook NewHook config st)) /\
  log_hooks (snd (setupLogger Hook NewHook config
                    (snd (setupLogger Hook NewHook config st))))
    = match NewHook (Logger_LogFile config) TraceLevel with
      | inl hook =>
          if String.eqb (Logger_File config) EmptyString
          then log_hooks st
          else (log_hooks st ++ [hook; hook])%list
      | inr _ => log_hooks st
      end.
Proof.
  unfold setupLogger.
  destruct (Config_Debug config), (Config_Trace config),
    (String.eqb (Logger_File config) EmptyString),
    (NewHook (Logger_LogFile config) TraceLevel); simpl;
    repeat split; rewrite <- ?app_assoc; reflexivity.
Qed.

End SetupLoggerFacts.

(** * The further properties on the scenarios *)

Lemma signal_stays_fired_witness :
  exec continuous_with_server [Ret Main None; Sched Main]
    (state_after continuous_with_server [Sched Main; ParentCancel])
    = Some (state_after continuous_with_server
              [Sched Main; ParentCancel; Ret Main None; Sched Main]) /\
  ctx_done (state_after continuous_with_server [Sched Main; ParentCancel])
    = true /\
  ctx_done (state_after continuous_with_server
              [Sched Main; ParentCancel; Ret Main None; Sched Main]) = true.
Proof.
  assert (Hex : exec continuous_with_server [Ret Main None; Sched Main]
                  (state_after continuous_with_server
                     [Sched Main; ParentCancel])
                = Some (state_after continuous_with_server
                          [Sched Main; ParentCancel; Ret Main None;
                           Sched Main]))
    by (vm_compute; reflexivity).
  assert (Hd : ctx_done (state_after continuous_with_server
                           [Sched Main; ParentCancel]) = true)
    by (vm_compute; reflexivity).
  split; [exact Hex|]. split; [exact Hd|].
  exact (proj1 (signal_stays_fired continuous_with_server _ _ _ Hex) Hd).
Defined.

Lemma Run_return_fires_signal_witness :
  Run continuous_with_server cancelled_at_gate
    = Some (state_after continuous_with_server cancelled_at_gate) /\
  main (state_after continuous_with_server cancelled_at_gate)
    = MReturned None /\
  server (state_after continuous_with_server cancelled_at_gate) = SServe /\
  ctx_done (state_after continuous_with_server cancelled_at_gate) = true.
Proof.
  assert (Hrun : Run continuous_with_server cancelled_at_gate
                 = Some (state_after continuous_with_server
                           cancelled_at_gate))
    by (vm_compute; reflexivity).
  assert (Hm : main (state_after continuous_with_server cancelled_at_gate)
               = MReturned None)
    by (vm_compute; reflexivity).
  split; [exact Hrun|]. split; [exact Hm|].
  split; [vm_compute; reflexivity|].
  exact (proj1 (Run_return_fires_signal continuous_with_server _ _ _
                  Hrun Hm)).
Defined.

Lemma Run_fails_only_with_server_witness :
  Run continuous_no_server (poll_failure_run ++ join)
    = Some (state_after continuous_no_server (poll_failure_run ++ join)) /\
  server (state_after continuous_no_server (poll_failure_run ++ join))
    = SNone /\
  g_err (g (state_after continuous_no_server (poll_failure_run ++ join)))
    = None.
Proof.
  assert (Hrun : Run continuous_no_server (poll_failure_run ++ join)
                 = Some (state_after continuous_no_server
                           (poll_failure_run ++ join)))
    by (vm_compute; reflexivity).
  split; [exact Hrun|].
  pose proof (proj1 (Run_fails_only_with_server continuous_no_server _ _
                       Hrun) eq_refl) as (Hs & _ & Hg & _).
  split; [exact Hs | exact Hg].
Defined.

Lemma single_stage_success_witness :
  Runner_Capacity single_stage_with_server < 1 /\
  Run single_stage_with_server (scheduled_exit_run ++ [Sched Main])
    = Some (state_after single_stage_with_server
              (scheduled_exit_run ++ [Sched Main])) /\
  In (EvPoll 0 None)
     (trace (state_after single_stage_with_server
               (scheduled_exit_run ++ [Sched Main]))) /\
  main (state_after single_stage_with_server
          (scheduled_exit_run ++ [Sched Main])) = MReturned None /\
  g_err (g (state_after single_stage_with_server
              (scheduled_exit_run ++ [Sched Main]))) = Some Canceled /\
  isScheduledExit (state_after single_stage_with_server
                     (scheduled_exit_run ++ [Sched Main])) = true.
Proof.
  assert (Hcap : Runner_Capacity single_stage_with_server < 1)
    by (vm_compute; reflexivity).
  assert (Hrun : Run single_stage_with_server
                   (scheduled_exit_run ++ [Sched Main])
                 = Some (state_after single_stage_with_server
                           (scheduled_exit_run ++ [Sched Main])))
    by (vm_compute; reflexivity).
  assert (Hin : In (EvPoll 0 None)
                  (trace (state_after single_stage_with_server
                            (scheduled_exit_run ++ [Sched Main]))))
    by (vm_compute; in_list).
  assert (Hm : main (state_after single_stage_with_server
                       (scheduled_exit_run ++ [Sched Main]))
               = MReturned None)
    by (vm_compute; reflexivity).
  split; [exact Hcap|]. split; [exact Hrun|]. split; [exact Hin|].
  split; [exact Hm|]. split; [vm_compute; reflexivity|].
  exact (proj1 (single_stage_success single_stage_with_server _ _ _
                  Hcap Hrun Hin Hm)).
Defined.

Lemma continuous_returns_join_error_witness :
  1 <= Runner_Capacity continuous_with_server /\
  Run continuous_with_server external_shutdown_run
    = Some (state_after continuous_with_server external_shutdown_run) /\
  main (state_after continuous_with_server external_shutdown_run)
    = MReturned (Some Canceled) /\
  isScheduledExit (state_after continuous_with_server external_shutdown_run)
    = false.
Proof.
  assert (Hcap : 1 <= Runner_Capacity continuous_with_server)
    by (vm_compute; discriminate).
  assert (Hrun : Run continuous_with_server external_shutdown_run
                 = Some (state_after continuous_with_server
                           external_shutdown_run))
    by (vm_compute; reflexivity).
  split; [exact Hcap|]. split; [exact Hrun|].
  split; [vm_compute; reflexivity|].
  exact (proj1 (continuous_returns_join_error continuous_with_server _ _
                  Hcap Hrun)).
Defined.

Lemma successful_ping_is_last_witness :
  Run single_stage_no_server connect
    = Some (state_after single_stage_no_server connect) /\
  In (EvPing None) (trace (state_after single_stage_no_server connect)) /\
  main (state_after single_stage_no_server connect) <> MPing.
Proof.
  assert (Hrun : Run single_stage_no_server connect
                 = Some (state_after single_stage_no_server connect))
    by (vm_compute; reflexivity).
  assert (Hin : In (EvPing None)
                  (trace (state_after single_stage_no_server connect)))
    by (vm_compute; in_list).
  split; [exact Hrun|]. split; [exact Hin|].
  exact (proj1 (proj2 (proj2 (successful_ping_is_last
                                single_stage_no_server _ _ Hrun Hin)))).
Defined.

Lemma Wait_returns_when_tasks_done_witness :
  Run continuous_no_server poll_failure_run
    = Some (state_after continuous_no_server poll_failure_run) /\
  main (state_after continuous_no_server poll_failure_run) = MWait /\
  exists s',
    step continuous_no_server (Sched Main)
      (state_after continuous_no_server poll_failure_run) = Some s'.
Proof.
  assert (Hrun : Run continuous_no_server poll_failure_run
                 = Some (state_after continuous_no_server poll_failure_run))
    by (vm_compute; reflexivity).
  assert (Hm : main (state_after continuous_no_server poll_failure_run)
               = MWait)
    by (vm_compute; reflexivity).
  split; [exact Hrun|]. split; [exact Hm|].
  apply (proj2 (proj1 (Wait_returns_when_tasks_done continuous_no_server
                         _ _ Hrun Hm))).
  split; vm_compute; reflexivity.
Defined.

Lemma continuous_poller_witness :
  1 <= Runner_Capacity continuous_no_server /\
  Run continuous_no_server poll_failure_run
    = Some (state_after continuous_no_server poll_failure_run) /\
  exists r,
    poller_trace (state_after continuous_no_server poll_failure_run)
    = continuous_script continuous_no_server r.
Proof.
  assert (Hcap : 1 <= Runner_Capacity continuous_no_server)
    by (vm_compute; discriminate).
  assert (Hrun : Run continuous_no_server poll_failure_run
                 = Some (state_after continuous_no_server poll_failure_run))
    by (vm_compute; reflexivity).
  split; [exact Hcap|]. split; [exact Hrun|].
  destruct (continuous_poller continuous_no_server _ _ Hcap Hrun)
    as (r & _ & Hdone).
  exists r. apply Hdone. vm_compute; reflexivity.
Defined.

Lemma each_task_started_once_witness :
  Run continuous_with_server connect
    = Some (state_after continuous_with_server connect) /\
  (Go_count Server (state_after continuous_with_server connect) <= 1)%nat /\
  (Go_count Poller (state_after continuous_with_server connect) <= 1)%nat.
Proof.
  assert (Hrun : Run continuous_with_server connect
                 = Some (state_after continuous_with_server connect))
    by (vm_compute; reflexivity).
  split; [exact Hrun|].
  pose proof (each_task_started_once continuous_with_server _ _ Hrun)
    as (_ & Hs & Hp & _).
  split; [exact Hs | exact Hp].
Defined.


Lemma Run_can_always_return_witness :
  Run continuous_with_server server_fails_first
    = Some (state_after continuous_with_server server_fails_first) /\
  exists ls' s',
    exec continuous_with_server ls'
      (state_after continuous_with_server server_fails_first) = Some s' /\
    returned (main s') = true.
Proof.
  assert (Hrun : Run continuous_with_server server_fails_first
                 = Some (state_after continuous_with_server
                           server_fails_first))
    by (vm_compute; reflexivity).
  split; [exact Hrun|].
  exact (Run_can_always_return continuous_with_server _ _ Hrun).
Defined.

Section PingFirst.

Variable config : Config.

(** X12. The signal is looked at only after a ping has returned: before the
    poller is started and before [Run] returns, by whichever path, at
    least one ping has returned, and the last thing the loop did was a
    ping, not a sleep.  So even a [Run] whose parent was cancelled from
    the start pings once, and a cancellation during the sleep of line 136
    is noticed only after one more ping. *)
Theorem ping_before_poller_and_return ls s :
  Run config ls = Some s ->
  poller s <> PNone \/ returned (main s) = true ->
  exists es r,
    gate_trace s = (flat_map retry_cycle es ++ [EvPing r])%list /\
    In (EvPing r) (trace s).
Proof.
  intros Hrun Hor.
  destruct (gate_inv_reach config ls s Hrun) as (es & tail & Hg & Ht).
  pose proof (ctl_inv_reach config ls s Hrun) as Hc.
  unfold ctl_inv in Hc. destruct Hc as (_ & _ & _ & _ & _ & Hc).
  assert (Hlate : before_join (main s) = false).
  { destruct Hor as [Hp|Hr].
    - destruct (main s); simpl in *; try reflexivity; tauto.
    - destruct (main s); simpl in *; try reflexivity; discriminate. }
  assert (Htail : exists r, tail = [EvPing r])
    by (destruct (main s); simpl in *; try discriminate; exact Ht).
  destruct Htail as [r ->].
  exists es, r. split; [exact Hg|].
  assert (Hin : In (EvPing r) (gate_trace s))
    by (rewrite Hg; apply in_app_iff; right; left; reflexivity).
  apply filter_In in Hin. tauto.
Qed.

(** X13. A [Run] that returns through the join leaves no goroutine behind: the
    poller closure has returned, the status server is not serving, and
    the group's counter is 0.  (Only the return of line 127 can leave the
    status server running.) *)
Theorem join_leaves_nothing_running ls s r :
  Run config ls = Some s ->
  main s = MReturned r ->
  ~ In EvCtxDone (trace s) ->
  poller s = PDone /\ server_running (server s) = false /\
  g_wg (g s) = 0%nat /\
  exists err, In (EvWait err) (trace s).
Proof.
  intros Hrun Hm Hn.
  pose proof (ctl_inv_reach config ls s Hrun) as Hc.
  unfold ctl_inv in Hc; rewrite Hm in Hc.
  destruct Hc as (_ & Hw & Hgo & Hen & _ & _ & Hc).
  destruct Hc as [(Hin & _) | (_ & Hp & Hs & Hwait & _)]; [contradiction|].
  assert (Hsv : server_running (server s) = false).
  { destruct (server s) eqn:Hsv; try reflexivity.
    assert (Hx : server_enabled config = true)
      by (apply Hen, Hgo; congruence).
    specialize (Hs Hx). discriminate. }
  rewrite Hsv, Hp in Hw; simpl in Hw.
  split; [exact Hp|]. split; [exact Hsv|]. split; [exact Hw|]. eauto.
Qed.

End PingFirst.

Lemma ping_before_poller_and_return_witness :
  Run continuous_with_server cancelled_at_gate
    = Some (state_after continuous_with_server cancelled_at_gate) /\
  returned (main (state_after continuous_with_server cancelled_at_gate))
    = true /\
  exists es r,
    gate_trace (state_after continuous_with_server cancelled_at_gate)
    = (flat_map retry_cycle es ++ [EvPing r])%list.
Proof.
  assert (Hrun : Run continuous_with_server cancelled_at_gate
                 = Some (state_after continuous_with_server
                           cancelled_at_gate))
    by (vm_compute; reflexivity).
  assert (Hr : returned (main (state_after continuous_with_server
                                 cancelled_at_gate)) = true)
    by (vm_compute; reflexivity).
  split; [exact Hrun|]. split; [exact Hr|].
  destruct (ping_before_poller_and_return continuous_with_server _ _ Hrun
              (or_intror Hr)) as (es & r & Hg & _).
  exists es, r. exact Hg.
Defined.

Lemma join_leaves_nothing_running_witness :
  Run continuous_with_server external_shutdown_run
    = Some (state_after continuous_with_server external_shutdown_run) /\
  main (state_after continuous_with_server external_shutdown_run)
    = MReturned (Some Canceled) /\
  poller (state_after continuous_with_server external_shutdown_run)
    = PDone /\
  server_running
    (server (state_after continuous_with_server external_shutdown_run))
    = false.
Proof.
  assert (Hrun : Run continuous_with_server external_shutdown_run
                 = Some (state_after continuous_with_server
                           external_shutdown_run))
    by (vm_compute; reflexivity).
  assert (Hm : main (state_after continuous_with_server
                       external_shutdown_run) = MReturned (Some Canceled))
    by (vm_compute; reflexivity).
  assert (Hn : ~ In EvCtxDone
                 (trace (state_after continuous_with_server
                           external_shutdown_run)))
    by (vm_compute; intuition discriminate).
  split; [exact Hrun|]. split; [exact Hm|].
  pose proof (join_leaves_nothing_running continuous_with_server _ _ _
                Hrun Hm Hn) as (Hp & Hs & _).
  split; [exact Hp | exact Hs].
Defined.
